(** * Ranking queries of the tattoo-bot database layer

    A shallow embedding of [src/database/models.py], of the search functions
    of [src/database/master_queries.py] (from [get_client_info_and_styles]
    down to [get_master_new_registered]), of [create_like] in
    [src/database/common_queries.py] and of [validate_style_ids] in
    [src/database/db_utils.py].

    Tables are lists of rows in the order a sequential scan yields them.
    A query is a pure function of a snapshot [Database]; [create_like]
    returns the new snapshot next to its result.  A Python function whose
    [except Exception] handler logs and falls off its end returns [None]:
    here that is the [None] of an [option]. *)

From stdpp Require Import gmap strings list sorting.
From Stdlib Require Import Ascii.

Local Open Scope string_scope.
Local Open Scope list_scope.
Local Open Scope Z_scope.

(** ** Tables ([models.py])

    One module per mapped class, so that a column reads [Master.city m] as
    in the source.  Only the columns read by the modelled queries are kept;
    timestamps are seconds as an integer. *)

Module Client.
Record t := mk {
  client_id : Z;
  name : string;
  city : string;
  tattoo_type : string
}.
End Client.

Module Master.
Record t := mk {
  master_id : Z;
  name : string;
  city : string;
  about_master : string;
  tattoo_type : string;
  date_of_reg : Z;
  is_blocked : bool
}.
End Master.

(** [like_id] and [like_date] are generated by the server and read by no
    query below. *)
Module Likes.
Record t := mk {
  client_id : Z;
  master_id : Z
}.
End Likes.

Module Styles.
Record t := mk {
  style_id : Z;
  style_name : string
}.
End Styles.

Module ClientStyles.
Record t := mk {
  client_id : Z;
  style_id : Z
}.
End ClientStyles.

Module MasterStyles.
Record t := mk {
  master_id : Z;
  style_id : Z
}.
End MasterStyles.

Module MasterPhotos.
Record t := mk {
  master_id : Z;
  photo_path : string
}.
End MasterPhotos.

Global Instance Client_eq_dec : EqDecision Client.t.
Proof. solve_decision. Defined.
Global Instance Master_eq_dec : EqDecision Master.t.
Proof. solve_decision. Defined.
Global Instance Likes_eq_dec : EqDecision Likes.t.
Proof. solve_decision. Defined.
Global Instance ClientStyles_eq_dec : EqDecision ClientStyles.t.
Proof. solve_decision. Defined.
Global Instance MasterStyles_eq_dec : EqDecision MasterStyles.t.
Proof. solve_decision. Defined.

(** A snapshot of the store; the fields carry the [__tablename__]s. *)
Record Database := mkDatabase {
  client : list Client.t;
  master : list Master.t;
  likes : list Likes.t;
  styles : list Styles.t;
  client_styles : list ClientStyles.t;
  master_styles : list MasterStyles.t;
  master_photos : list MasterPhotos.t
}.

(** [master.master_id] is the primary key of [master]. *)
Definition master_pk (db : Database) : Prop :=
  NoDup (Master.master_id <$> master db).

(** [UniqueConstraint("client_id", "master_id")] of [Likes]. *)
Definition unique_client_master_likes (db : Database) : Prop :=
  NoDup (likes db).

(** ** Rows and result dictionaries *)

(** A row of the ranking request:
    [(master_id, name, city, about_master, count_likes)]. *)
Record master_tuple := mk_tuple {
  t_master_id : Z;
  t_name : string;
  t_city : string;
  t_about_master : string;
  t_count_likes : Z
}.

(** The dictionary built for every master of the returned page. *)
Record master_dict := mk_dict {
  d_master_id : Z;
  d_name : string;
  d_city : string;
  d_about_master : string;
  d_styles : list string;
  d_photo_path : list string;
  d_likes : Z
}.

(** ** The SQL engine

    [ORDER BY count_likes DESC] is the only ordering the requests ask for.
    PostgreSQL promises that the rows come back sorted by that key and
    nothing about rows with equal keys, so the engine is any function that
    returns a sorted permutation. *)
Definition desc_count_likes (a b : master_tuple) : Prop :=
  t_count_likes b ≤ t_count_likes a.

Record SqlEngine := mkEngine {
  order_by_desc : list master_tuple → list master_tuple;
  order_by_desc_perm : ∀ l, order_by_desc l ≡ₚ l;
  order_by_desc_sorted : ∀ l, StronglySorted desc_count_likes (order_by_desc l)
}.

(** ** Strings: [string_agg(col, ';')] and [str.split(";")] *)

Definition semicolon : ascii := ";"%char.

(** PostgreSQL's [string_agg] over the rows of one group; a group is never
    empty, the empty case is only there for totality. *)
Fixpoint string_agg (l : list string) : string :=
  match l with
  | [] => ""
  | [x] => x
  | x :: l' => x +:+ String semicolon (string_agg l')
  end.

(** Python's [s.split(";")]: one field more than there are separators. *)
Fixpoint split (s : string) : list string :=
  match s with
  | EmptyString => [EmptyString]
  | String c s' =>
      if decide (c = semicolon) then EmptyString :: split s'
      else match split s' with
           | [] => [String c EmptyString]
           | w :: ws => String c w :: ws
           end
  end.


(** ** Cursors: [Result.fetchmany]

    A result is consumed front to back; [fetchmany size] hands out the next
    [size] rows and leaves the rest.  A size below one is outside the use
    the functions document; the model hands out nothing for it. *)
Definition fetchmany {A} (size : Z) (cursor : list A) : list A * list A :=
  (take (Z.to_nat size) cursor, drop (Z.to_nat size) cursor).

(** [len_index // len_return + bool(len_index % len_return)]; division by
    zero raises [ZeroDivisionError]. *)
Definition number_iter (len_index len_return : Z) : option Z :=
  if decide (len_return = 0) then None
  else Some (len_index `div` len_return
             + (if decide (len_index `mod` len_return = 0) then 0 else 1)).

(** The loop
    [for _ in range(number_iter): value = gen.fetchmany(len_return);
     list_tuples_masters = value]
    with the cursor threaded through: after the loop the variable holds the
    last batch, or what it held before when the range is empty. *)
Fixpoint fetch_loop {A} (n : nat) (len_return : Z)
    (cursor : list A) (list_tuples_masters : list A) : list A :=
  match n with
  | O => list_tuples_masters
  | S n' =>
      let '(value, cursor') := fetchmany len_return cursor in
      fetch_loop n' len_return cursor' value
  end.

(** The same loop in [get_master_new_registered], which leaves the function
    with [return result] as soon as a batch is empty: [None] is that early
    return. *)
Fixpoint fetch_loop_or_return {A} (n : nat) (len_return : Z)
    (cursor : list A) (list_tuples_masters : list A) : option (list A) :=
  match n with
  | O => Some list_tuples_masters
  | S n' =>
      let '(value, cursor') := fetchmany len_return cursor in
      match value with
      | [] => None
      | _ => fetch_loop_or_return n' len_return cursor' value
      end
  end.

(** ** Aggregation and dictionaries *)

(** [SELECT key, string_agg(col, ';') ... GROUP BY key] over rows
    [(key, col)].  SQL leaves the order of the groups open; the model emits
    them in the order in which [remove_dups] keeps the keys. *)
Definition group_by_string_agg (rows : list (Z * string)) : list (Z * string) :=
  (λ k, (k, string_agg (snd <$> filter (λ r, r.1 = k) rows)))
    <$> remove_dups (fst <$> rows).

(** Python's [dict(pairs)]: a later pair replaces an earlier one. *)
Definition dict {V} (pairs : list (Z * V)) : gmap Z V :=
  foldl (λ d kv, <[kv.1 := kv.2]> d) ∅ pairs.

(** [count(Likes.master_id)] over the rows that [outerjoin(Master, Likes)]
    yields for one master: the matching likes, or one row of NULLs when
    there is none; [count] skips the NULLs. *)
Definition outerjoin_likes (db : Database) (m : Master.t) : list (option Z) :=
  match filter (λ l, Likes.master_id l = Master.master_id m) (likes db) with
  | [] => [None]
  | ls => (λ l, Some (Likes.master_id l)) <$> ls
  end.

Definition count (column : list (option Z)) : Z :=
  Z.of_nat (length (omap id column)).

(** [select(Master.master_id, Master.name, Master.city, Master.about_master,
    count(Likes.master_id)).select_from(outerjoin(Master, Likes))
    .where(...).group_by(Master.master_id, ...)]: [master_id] is the primary
    key, so every master row that passes the [where] clause is one group. *)
Definition ranking_request (db : Database)
    (where_ : Master.t → Prop) `{!∀ m, Decision (where_ m)} : list master_tuple :=
  (λ m, mk_tuple (Master.master_id m) (Master.name m) (Master.city m)
          (Master.about_master m) (count (outerjoin_likes db m)))
    <$> filter where_ (master db).

(** [join(Master, MasterStyles)] on the foreign key. *)
Definition join_master_styles (db : Database) : list (Master.t * MasterStyles.t) :=
  m ← master db; ms ← master_styles db;
  if decide (MasterStyles.master_id ms = Master.master_id m) then [(m, ms)] else [].

(** ** [get_master_list_photos] and [get_master_list_selected_styles] *)

Definition get_master_list_photos (db : Database) (list_master_id : list Z)
    : gmap Z (list string) :=
  let foto_str :=
    group_by_string_agg
      ((λ p, (MasterPhotos.master_id p, MasterPhotos.photo_path p))
         <$> filter (λ p, MasterPhotos.master_id p ∈ list_master_id)
               (master_photos db)) in
  let foto_master_dict := dict foto_str in
  foldl (λ result master_id,
           let photo_path :=
             match foto_master_dict !! master_id with
             | Some s => split s
             | None => []
             end in
           <[master_id := photo_path]> result)
        ∅ list_master_id.

(** The rows of [MasterStyles] joined with [Styles] for the given masters,
    as [(master_id, style_name)]. *)
Definition master_style_names (db : Database) (list_master_id : list Z)
    : list (Z * string) :=
  ms ← master_styles db; s ← styles db;
  if decide (Styles.style_id s = MasterStyles.style_id ms
             ∧ MasterStyles.master_id ms ∈ list_master_id)
  then [(MasterStyles.master_id ms, Styles.style_name s)] else [].

Definition get_master_list_selected_styles (db : Database) (list_master_id : list Z)
    : gmap Z (list string) :=
  let styles_str := group_by_string_agg (master_style_names db list_master_id) in
  let styles_master_dict := dict styles_str in
  foldl (λ result master_id,
           let style :=
             match styles_master_dict !! master_id with
             | Some s => split s
             | None => []
             end in
           <[master_id := style]> result)
        ∅ list_master_id.

(** The closing loop of the ranking functions: one dictionary per master of
    the page; [styles[master_id]] and [photo_path[master_id]] raise
    [KeyError] on a missing key. *)
Definition master_dicts (styles photo_path : gmap Z (list string))
    (list_tuples_masters : list master_tuple) : option (list master_dict) :=
  mapM (λ master,
          let master_id := t_master_id master in
          s ← styles !! master_id;
          p ← photo_path !! master_id;
          Some (mk_dict master_id (t_name master) (t_city master)
                  (t_about_master master) s p (t_count_likes master)))
       list_tuples_masters.

(** ** [create_like] ([common_queries.py])

    [session.add(like)] is flushed when the transaction block is left; the
    INSERT raises [IntegrityError] when a constraint of [Likes] is violated:
    the unique pair, or one of the two foreign keys.  The handler turns that
    into [False]; the snapshot is unchanged because the transaction rolls
    back. *)
Definition integrity_ok (db : Database) (like : Likes.t) : Prop :=
  Likes.client_id like ∈ (Client.client_id <$> client db)
  ∧ Likes.master_id like ∈ (Master.master_id <$> master db)
  ∧ like ∉ likes db.

Definition add_like (db : Database) (like : Likes.t) : Database :=
  mkDatabase (client db) (master db) (likes db ++ [like]) (styles db)
    (client_styles db) (master_styles db) (master_photos db).

Definition create_like (db : Database) (client_id master_id : Z) : bool * Database :=
  let like := Likes.mk client_id master_id in
  if decide (integrity_ok db like) then (true, add_like db like)
  else (false, db).

(** A run of further [create_like] calls, given as pairs
    [(client_id, master_id)]. *)
Definition create_likes (db : Database) (calls : list (Z * Z)) : Database :=
  foldl (λ db call, (create_like db call.1 call.2).2) db calls.

(** ** A concrete engine and a concrete store *)

Global Instance desc_count_likes_dec a b : Decision (desc_count_likes a b).
Proof. unfold desc_count_likes. apply _. Defined.

Global Instance desc_count_likes_trans : Transitive desc_count_likes.
Proof. unfold desc_count_likes. intros a b c ? ?. lia. Qed.

Global Instance desc_count_likes_total : Total desc_count_likes.
Proof. unfold desc_count_likes. intros a b. lia. Qed.

(** An engine that sorts with a merge sort. *)
Definition merge_engine : SqlEngine :=
  mkEngine (merge_sort desc_count_likes)
    (merge_sort_Permutation desc_count_likes)
    (StronglySorted_merge_sort desc_count_likes).

Definition mk_likes (master_id : Z) (client_ids : list Z) : list Likes.t :=
  (λ c, Likes.mk c master_id) <$> client_ids.

(** The store of the Berlin example: requester 100 in Berlin, preference
    Both, the wildcard as only style; P1 = 1 (Berlin, Color, 3 likes),
    P2 = 2 (Berlin, Monochrome, 1 like), P3 = 3 (Munich, Color, 5 likes). *)
Definition berlin : Database :=
  mkDatabase
    (Client.mk 100 "R" "Berlin" "Both"
       :: ((λ c, Client.mk c "c" "Hamburg" "Both") <$> [101; 102; 103; 104; 105]))
    [ Master.mk 1 "P1" "Berlin" "a1" "Color" 0 false;
      Master.mk 2 "P2" "Berlin" "a2" "Monochrome" 0 false;
      Master.mk 3 "P3" "Munich" "a3" "Color" 0 false ]
    (mk_likes 1 [101; 102; 103] ++ mk_likes 2 [101]
       ++ mk_likes 3 [101; 102; 103; 104; 105])
    [ Styles.mk 0 "all styles"; Styles.mk 1 "realism"; Styles.mk 2 "dotwork" ]
    [ ClientStyles.mk 100 0 ]
    [ MasterStyles.mk 1 1; MasterStyles.mk 2 2; MasterStyles.mk 3 1;
      MasterStyles.mk 3 2 ]
    [ MasterPhotos.mk 1 "p1a.jpg"; MasterPhotos.mk 1 "p1b.jpg";
      MasterPhotos.mk 3 "p3.jpg" ].

Definition P1_card : master_dict :=
  mk_dict 1 "P1" "Berlin" "a1" ["realism"] ["p1a.jpg"; "p1b.jpg"] 3.
Definition P2_card : master_dict :=
  mk_dict 2 "P2" "Berlin" "a2" ["dotwork"] [] 1.
Definition P3_card : master_dict :=
  mk_dict 3 "P3" "Munich" "a3" ["realism"; "dotwork"] ["p3.jpg"] 5.

(** The Berlin store after provider 2 has been blocked. *)
Definition P2_blocked : Master.t :=
  Master.mk 2 "P2" "Berlin" "a2" "Monochrome" 0 true.

Definition berlin_P2_blocked : Database :=
  mkDatabase (client berlin)
    [ Master.mk 1 "P1" "Berlin" "a1" "Color" 0 false; P2_blocked;
      Master.mk 3 "P3" "Munich" "a3" "Color" 0 false ]
    (likes berlin) (styles berlin) (client_styles berlin) (master_styles berlin)
    (master_photos berlin).

(** The Berlin store in which requester 100 has chosen realism (style 1)
    instead of the wildcard. *)
Definition berlin_realism : Database :=
  mkDatabase (client berlin) (master berlin) (likes berlin) (styles berlin)
    [ ClientStyles.mk 100 1 ] (master_styles berlin) (master_photos berlin).

(** Two providers of Berlin without any like, stored with the larger id
    first; requester 100 has chosen the wildcard. *)
Definition ties : Database :=
  mkDatabase
    [ Client.mk 100 "R" "Berlin" "Both" ]
    [ Master.mk 2 "P2" "Berlin" "a2" "Color" 0 false;
      Master.mk 1 "P1" "Berlin" "a1" "Color" 0 false ]
    []
    [ Styles.mk 0 "all styles"; Styles.mk 1 "realism" ]
    [ ClientStyles.mk 100 0 ]
    [ MasterStyles.mk 1 1; MasterStyles.mk 2 1 ]
    [].

(** Requester 100 likes providers 1 and 2, requester 101 likes provider 2;
    both providers have one style row and one photo. *)
Definition two_liked : Database :=
  mkDatabase
    [ Client.mk 100 "R" "Berlin" "Both"; Client.mk 101 "S" "Berlin" "Both" ]
    [ Master.mk 1 "P1" "Berlin" "a1" "Color" 0 false;
      Master.mk 2 "P2" "Berlin" "a2" "Color" 0 false ]
    [ Likes.mk 100 1; Likes.mk 100 2; Likes.mk 101 2 ]
    [ Styles.mk 0 "all styles"; Styles.mk 1 "realism" ]
    [ ClientStyles.mk 100 0 ]
    [ MasterStyles.mk 1 1; MasterStyles.mk 2 1 ]
    [ MasterPhotos.mk 1 "one.jpg"; MasterPhotos.mk 2 "two.jpg" ].

(** Requester 100 likes provider 1, who has a photo and no style row. *)
Definition liked_without_styles : Database :=
  mkDatabase
    [ Client.mk 100 "R" "Berlin" "Both" ]
    [ Master.mk 1 "P1" "Berlin" "a1" "Color" 0 false ]
    [ Likes.mk 100 1 ]
    [ Styles.mk 0 "all styles"; Styles.mk 1 "realism" ]
    [ ClientStyles.mk 100 0 ]
    []
    [ MasterPhotos.mk 1 "one.jpg" ].

(** ** Further operations of the store

    The functions around the search: likes, photos, chosen styles, blocking
    and deletion.  A function that returns nothing in the source returns the
    new snapshot here. *)

Definition set_master (db : Database) (rows : list Master.t) : Database :=
  mkDatabase (client db) rows (likes db) (styles db) (client_styles db)
    (master_styles db) (master_photos db).

Definition set_likes (db : Database) (rows : list Likes.t) : Database :=
  mkDatabase (client db) (master db) rows (styles db) (client_styles db)
    (master_styles db) (master_photos db).

Definition set_client_styles (db : Database) (rows : list ClientStyles.t) : Database :=
  mkDatabase (client db) (master db) (likes db) (styles db) rows
    (master_styles db) (master_photos db).

Definition set_master_styles (db : Database) (rows : list MasterStyles.t) : Database :=
  mkDatabase (client db) (master db) (likes db) (styles db) (client_styles db)
    rows (master_photos db).

Definition set_master_photos (db : Database) (rows : list MasterPhotos.t) : Database :=
  mkDatabase (client db) (master db) (likes db) (styles db) (client_styles db)
    (master_styles db) rows.

(** [Styles.style_id] is the primary key of [styles], [Client.client_id]
    that of [client]. *)
Definition styles_pk (db : Database) : Prop :=
  NoDup (Styles.style_id <$> styles db).

Definition client_pk (db : Database) : Prop :=
  NoDup (Client.client_id <$> client db).

(** [delete_like] ([common_queries.py]): [True] when [rowcount > 0]. *)
Definition delete_like (db : Database) (client_id master_id : Z) : bool * Database :=
  let rowcount :=
    length (filter (λ l, Likes.client_id l = client_id ∧ Likes.master_id l = master_id)
              (likes db)) in
  (bool_decide (0 < rowcount)%nat,
   set_likes db
     (filter (λ l, ¬ (Likes.client_id l = client_id ∧ Likes.master_id l = master_id))
        (likes db))).

(** [get_master_likes_count]: [count(Likes.like_id)] over the likes of the
    master. *)
Definition get_master_likes_count (db : Database) (master_id : Z) : Z :=
  Z.of_nat (length (filter (λ l, Likes.master_id l = master_id) (likes db))).

(** [check_master_in_db] and [check_client_in_db]: [select(exists()...)]. *)
Definition check_master_in_db (db : Database) (master_id : Z) : bool :=
  bool_decide (Exists (λ m, Master.master_id m = master_id) (master db)).

Definition check_client_in_db (db : Database) (client_id : Z) : bool :=
  bool_decide (Exists (λ c, Client.client_id c = client_id) (client db)).

(** [delete_master_photos]. *)
Definition delete_master_photos (db : Database) (master_id : Z) : Database :=
  set_master_photos db
    (filter (λ p, MasterPhotos.master_id p ≠ master_id) (master_photos db)).

(** The number of characters of a string, which holds the bytes of its
    UTF-8 encoding: the bytes [10xxxxxx] continue a character.  A column
    [String(n)] takes at most [n] characters. *)
Definition continuation_byte (a : ascii) : bool :=
  match a with Ascii _ _ _ _ _ _ b6 b7 => b7 && negb b6 end.

Fixpoint char_length (s : string) : nat :=
  match s with
  | EmptyString => 0%nat
  | String a s' => ((if continuation_byte a then 0 else 1) + char_length s')%nat
  end.

(** [create_master_photos]: the old photos are deleted in a transaction of
    their own; the new rows are inserted together.  The INSERT fails, and
    the function logs and stores nothing, when the master does not exist
    (foreign key) or a path is longer than the column [String(400)]. *)
Definition create_master_photos (db : Database) (master_id : Z)
    (photo_paths : list string) : Database :=
  let db1 := delete_master_photos db master_id in
  match photo_paths with
  | [] => db1
  | _ =>
      if decide (master_id ∈ Master.master_id <$> master db1
                 ∧ Forall (λ photo_path, (char_length photo_path ≤ 400)%nat)
                     photo_paths)
      then set_master_photos db1
             (master_photos db1 ++ (MasterPhotos.mk master_id <$> photo_paths))
      else db1
  end.

(** [get_master_photos]: the scalar of the aggregate, [None] without a row;
    an empty string is falsy as well. *)
Definition get_master_photos (db : Database) (master_id : Z) : list string :=
  let foto_str :=
    head (snd <$> group_by_string_agg
                    ((λ p, (MasterPhotos.master_id p, MasterPhotos.photo_path p))
                       <$> filter (λ p, MasterPhotos.master_id p = master_id)
                             (master_photos db))) in
  match foto_str with
  | Some s => if decide (s = "") then [] else split s
  | None => []
  end.

(** [delete_master_styles] and [delete_client_style]. *)
Definition delete_master_styles (db : Database) (master_id : Z) : Database :=
  set_master_styles db
    (filter (λ ms, MasterStyles.master_id ms ≠ master_id) (master_styles db)).

Definition delete_client_style (db : Database) (client_id : Z) : Database :=
  set_client_styles db
    (filter (λ cs, ClientStyles.client_id cs ≠ client_id) (client_styles db)).

(** [get_client_selected_styles] and [get_master_selected_styles]: the
    dictionary [{style_id: style_name}] of the join with [Styles]. *)
Definition get_client_selected_styles (db : Database) (client_id : Z) : gmap Z string :=
  dict (cs ← client_styles db; s ← styles db;
        if decide (Styles.style_id s = ClientStyles.style_id cs
                   ∧ ClientStyles.client_id cs = client_id)
        then [(ClientStyles.style_id cs, Styles.style_name s)] else []).

Definition get_master_selected_styles (db : Database) (master_id : Z) : gmap Z string :=
  dict (ms ← master_styles db; s ← styles db;
        if decide (Styles.style_id s = MasterStyles.style_id ms
                   ∧ MasterStyles.master_id ms = master_id)
        then [(MasterStyles.style_id ms, Styles.style_name s)] else []).

(** The loop of [create_client_styles] and [create_master_styles] over the
    validated ids: [scalar_one_or_none] finds the style, finds nothing (a
    warning is logged and the id skipped), or raises on several rows;
    [None] is that exception. *)
Definition styles_to_add (db : Database) (style_ids : list Z) : option (list Z) :=
  @concat Z <$>
    mapM (λ style_id,
            match filter (λ s, Styles.style_id s = style_id) (styles db) with
            | [] => Some []
            | [_] => Some [style_id]
            | _ => None
            end)
         style_ids.

(** [update_master_is_blocked] ([admin_queries.py]): [True] when a row was
    updated. *)
Definition block (new_value : bool) (m : Master.t) : Master.t :=
  Master.mk (Master.master_id m) (Master.name m) (Master.city m)
    (Master.about_master m) (Master.tattoo_type m) (Master.date_of_reg m) new_value.

Definition update_master_is_blocked (db : Database) (master_id : Z)
    (new_value : bool) : bool * Database :=
  let affected_rows :=
    length (filter (λ m, Master.master_id m = master_id) (master db)) in
  (bool_decide (0 < affected_rows)%nat,
   set_master db
     ((λ m, if decide (Master.master_id m = master_id) then block new_value m else m)
        <$> master db)).


(** [delete_master]: [scalar_one_or_none] finds the master, finds nothing,
    or raises on several rows (logged, nothing deleted);
    [session.delete] removes the master and, by the [cascade] of the
    relationships, its likes, styles and photos. *)
Definition delete_master (db : Database) (master_id : Z) : Database :=
  match filter (λ m, Master.master_id m = master_id) (master db) with
  | [_] =>
      mkDatabase (client db)
        (filter (λ m, Master.master_id m ≠ master_id) (master db))
        (filter (λ l, Likes.master_id l ≠ master_id) (likes db))
        (styles db) (client_styles db)
        (filter (λ ms, MasterStyles.master_id ms ≠ master_id) (master_styles db))
        (filter (λ p, MasterPhotos.master_id p ≠ master_id) (master_photos db))
  | _ => db
  end.

(** [delete_client], likewise with the client's likes and chosen styles. *)
Definition delete_client (db : Database) (client_id : Z) : Database :=
  match filter (λ c, Client.client_id c = client_id) (client db) with
  | [_] =>
      mkDatabase
        (filter (λ c, Client.client_id c ≠ client_id) (client db))
        (master db)
        (filter (λ l, Likes.client_id l ≠ client_id) (likes db))
        (styles db)
        (filter (λ cs, ClientStyles.client_id cs ≠ client_id) (client_styles db))
        (master_styles db) (master_photos db)
  | _ => db
  end.

(** [create_styles] ([common_queries.py]): the items of [styles_dict], in
    the order of the dictionary, are added in one transaction.  The INSERT
    fails, and the function logs and stores nothing, when an id is stored
    already (primary key), is outside the column [Integer], or a name is
    longer than the column [String(70)].  The keys of a dictionary differ. *)
Definition set_styles (db : Database) (rows : list Styles.t) : Database :=
  mkDatabase (client db) (master db) (likes db) rows (client_styles db)
    (master_styles db) (master_photos db).

Definition Integer (z : Z) : Prop := - 2 ^ 31 ≤ z < 2 ^ 31.

Definition create_styles (db : Database) (styles_dict : list (Z * string)) : Database :=
  if decide (NoDup styles_dict.*1
             ∧ Forall (λ item, (item.1 ∉ Styles.style_id <$> styles db)
                               ∧ Integer item.1
                               ∧ (char_length item.2 ≤ 70)%nat) styles_dict)
  then set_styles db
         (styles db ++ ((λ item, Styles.mk item.1 item.2) <$> styles_dict))
  else db.


(** [Result.unique()]: the rows without repetitions, in the order of their
    first occurrence. *)
Fixpoint unique {A} `{EqDecision A} (l : list A) : list A :=
  match l with
  | [] => []
  | x :: l' => x :: filter (λ y, y ≠ x) (unique l')
  end.

(** ** The search functions ([master_queries.py])

    [config_data/config.py] is not part of the sources at hand: its
    constants are parameters.  [TATTOO_TYPE_BOTH] is the third value of the
    tattoo type, which the code only meets in its [else] branch. *)
Section Queries.

Variable NUMBER_ALL_STYLES : Z.
Variable MAX_NUMBER_STYLES : Z.
Variables TATTOO_TYPE_MONOCHROME TATTOO_TYPE_COLOR TATTOO_TYPE_BOTH : string.
Variable engine : SqlEngine.

(** [validate_style_ids] ([db_utils.py]); [list(set(...))] is the list of
    the elements of the set. *)
Definition validate_style_ids (style_ids : list Z) : list Z :=
  let unique_style_ids := elements (list_to_set style_ids : gset Z) in
  if decide (NUMBER_ALL_STYLES ∈ unique_style_ids) then [NUMBER_ALL_STYLES]
  else filter (λ style_id, NUMBER_ALL_STYLES ≤ style_id ≤ MAX_NUMBER_STYLES)
         unique_style_ids.

(** The row [(client_id, name, city, tattoo_type, array_agg(style_id))]. *)
Definition client_info : Type := Z * string * string * string * list Z.

(** [join(Client, ClientStyles)] restricted to [Client.client_id == client_id]. *)
Definition join_client_styles (db : Database) (client_id : Z)
    : list (Client.t * ClientStyles.t) :=
  c ← client db; cs ← client_styles db;
  if decide (ClientStyles.client_id cs = Client.client_id c
             ∧ Client.client_id c = client_id)
  then [(c, cs)] else [].

(** [get_client_info_and_styles]: the first group of the inner join, or
    [None] for the empty list the function returns when [fetchone] finds
    no row. *)
Definition get_client_info_and_styles (db : Database) (client_id : Z)
    : option client_info :=
  let rows := join_client_styles db client_id in
  match rows with
  | [] => None
  | (c, _) :: _ =>
      Some (Client.client_id c, Client.name c, Client.city c, Client.tattoo_type c,
            (ClientStyles.style_id ∘ snd) <$> filter (λ r, r.1 = c) rows)
  end.

(** [filter_type]: the clause derived from the client's tattoo type. *)
Definition filter_type (tattoo_type : string) (m : Master.t) : Prop :=
  if decide (tattoo_type = TATTOO_TYPE_MONOCHROME)
  then Master.tattoo_type m ≠ TATTOO_TYPE_COLOR
  else if decide (tattoo_type = TATTOO_TYPE_COLOR)
  then Master.tattoo_type m ≠ TATTOO_TYPE_MONOCHROME
  else True.

Global Instance filter_type_dec tattoo_type m : Decision (filter_type tattoo_type m).
Proof. unfold filter_type. repeat case_decide; apply _. Defined.

(** The three ranking functions are one text up to two places: the city
    clause, [Master.city == city] or [Master.city != city], and the
    membership test of the request, [in_] or [not_in]. *)
Inductive city_clause := city_eq | city_ne.

Definition city_where (cl : city_clause) (city : string) (m : Master.t) : Prop :=
  match cl with
  | city_eq => Master.city m = city
  | city_ne => Master.city m ≠ city
  end.

Global Instance city_where_dec cl city m : Decision (city_where cl city m).
Proof. destruct cl; simpl; apply _. Defined.

Inductive membership := in_ | not_in.

Definition member_where (mb : membership) (x : Z) (subquery : list Z) : Prop :=
  match mb with
  | in_ => x ∈ subquery
  | not_in => x ∉ subquery
  end.

Global Instance member_where_dec mb x subquery : Decision (member_where mb x subquery).
Proof. destruct mb; simpl; apply _. Defined.

(** The subquery [all_master_client]. *)
Definition all_master_client (cl : city_clause) (db : Database)
    (client_id : Z) (city tattoo_type : string) (list_styles : list Z) : list Z :=
  if decide ([NUMBER_ALL_STYLES] = list_styles) then
    let universal_masters_for_client :=
      remove_dups
        ((MasterStyles.master_id ∘ snd)
           <$> filter (λ r, filter_type tattoo_type r.1
                            ∧ Master.is_blocked r.1 = false
                            ∧ city_where cl city r.1)
                 (join_master_styles db)) in
    universal_masters_for_client
  else
    let masters_for_client :=
      remove_dups
        ((λ r, MasterStyles.master_id r.1.2)
           <$> filter (λ r, filter_type tattoo_type r.1.1
                            ∧ ClientStyles.client_id r.2 = client_id
                            ∧ city_where cl city r.1.1)
                 (r ← join_master_styles db; cs ← client_styles db;
                  if decide (ClientStyles.style_id cs = MasterStyles.style_id r.2)
                  then [(r, cs)] else [])) in
    let universal_masters_for_client :=
      (MasterStyles.master_id ∘ snd)
        <$> filter (λ r, filter_type tattoo_type r.1
                         ∧ MasterStyles.style_id r.2 = NUMBER_ALL_STYLES
                         ∧ city_where cl city r.1)
              (join_master_styles db) in
    masters_for_client ++ universal_masters_for_client.

(** The request of a ranking function, before [ORDER BY]. *)
Definition like_request (cl : city_clause) (mb : membership) (db : Database)
    (client_id : Z) (city tattoo_type : string) (list_styles : list Z)
    : list master_tuple :=
  let subquery := all_master_client cl db client_id city tattoo_type list_styles in
  ranking_request db
    (λ m, city_where cl city m
          ∧ Master.is_blocked m = false
          ∧ member_where mb (Master.master_id m) subquery).

(** The common text of [get_master_ranking_by_like_all], [_city], [_none]. *)
Definition ranking_by_like (cl : city_clause) (mb : membership) (db : Database)
    (client_id len_index len_return : Z) : option (list master_dict) :=
  match get_client_info_and_styles db client_id with
  | None => Some []
  | Some (_, _, city, tattoo_type, list_styles) =>
      let request := like_request cl mb db client_id city tattoo_type list_styles in
      let generator_list_masters := order_by_desc engine request in
      n ← number_iter len_index len_return;
      let list_tuples_masters :=
        fetch_loop (Z.to_nat n) len_return generator_list_masters [] in
      let list_master_id := t_master_id <$> list_tuples_masters in
      let photo_path := get_master_list_photos db list_master_id in
      let styles := get_master_list_selected_styles db list_master_id in
      master_dicts styles photo_path list_tuples_masters
  end.

Definition get_master_ranking_by_like_all := ranking_by_like city_eq in_.
Definition get_master_ranking_by_like_city := ranking_by_like city_eq not_in.
Definition get_master_ranking_by_like_none := ranking_by_like city_ne in_.

Definition get_master_ranking_by_like_with_except (db : Database)
    (client_id len_index len_return : Z) (filtered : string)
    : option (list master_dict) :=
  let filtering_values := ["all"; "city"; "none"] in
  if decide (filtered ∉ filtering_values) then Some []
  else if decide (filtered = "all")
  then get_master_ranking_by_like_all db client_id len_index len_return
  else if decide (filtered = "city")
  then get_master_ranking_by_like_city db client_id len_index len_return
  else get_master_ranking_by_like_none db client_id len_index len_return.

(** [get_master_liked_client].  [list_tuples_masters] is not assigned
    before the loop: with an empty range the next statement raises
    [UnboundLocalError].  Photos are collected into a list, one entry per
    group of the photo query, and read back by the position of the master
    on the page; styles are read from a dictionary without a default. *)
Definition get_master_liked_client (db : Database)
    (client_id len_index len_return : Z) : option (list master_dict) :=
  let like_id_list :=
    Likes.master_id <$> filter (λ l, Likes.client_id l = client_id) (likes db) in
  let request :=
    ranking_request db
      (λ m, Master.master_id m ∈ like_id_list ∧ Master.is_blocked m = false) in
  let generator_list_masters := order_by_desc engine request in
  n ← number_iter len_index len_return;
  list_tuples_masters ←
    match Z.to_nat n with
    | O => None
    | S _ => Some (fetch_loop (Z.to_nat n) len_return generator_list_masters [])
    end;
  let list_master_id := t_master_id <$> list_tuples_masters in
  let master_foto_list :=
    (split ∘ snd)
      <$> group_by_string_agg
            ((λ p, (MasterPhotos.master_id p, MasterPhotos.photo_path p))
               <$> filter (λ p, MasterPhotos.master_id p ∈ list_master_id)
                     (master_photos db)) in
  let style_master_dict :=
    dict (group_by_string_agg (master_style_names db list_master_id)) in
  mapM (λ master : nat,
          t ← list_tuples_masters !! master;
          master_id ← list_master_id !! master;
          s ← style_master_dict !! master_id;
          p ← master_foto_list !! master;
          Some (mk_dict (t_master_id t) (t_name t) (t_city t) (t_about_master t)
                  (split s) p (t_count_likes t)))
       (seq 0 (length list_tuples_masters)).

(** [datetime.timedelta(weeks=1)], in seconds. *)
Definition week : Z := 7 * 24 * 60 * 60.

(** [get_master_new_registered]; [now] is what [datetime.datetime.now()]
    returns.  The scalar subquery [client_city] is NULL when the client is
    missing, and [Master.city == NULL] holds for no row. *)
Definition get_master_new_registered (db : Database) (now : Z)
    (client_id len_index len_return : Z) : option (list master_dict) :=
  let day_ago := now - week in
  let client_city :=
    head (Client.city <$> filter (λ c, Client.client_id c = client_id) (client db)) in
  let reg_day_ago :=
    Master.master_id
      <$> filter (λ m, Some (Master.city m) = client_city
                       ∧ day_ago < Master.date_of_reg m)
            (master db) in
  let request :=
    ranking_request db
      (λ m, Master.master_id m ∈ reg_day_ago ∧ Master.is_blocked m = false) in
  let generator_masters := order_by_desc engine request in
  n ← number_iter len_index len_return;
  match fetch_loop_or_return (Z.to_nat n) len_return generator_masters [] with
  | None => Some []
  | Some list_tuples_masters =>
      let list_master_id := t_master_id <$> list_tuples_masters in
      let photo_path := get_master_list_photos db list_master_id in
      let styles := get_master_list_selected_styles db list_master_id in
      master_dicts styles photo_path list_tuples_masters
  end.

(** The five ranking operations of the interface, to state properties of
    all of them at once. *)
Inductive ranking_op :=
  | rankCandidates (filtered : string)
  | rankLiked
  | rankNew (now : Z).

Definition run (op : ranking_op) (db : Database)
    (client_id len_index len_return : Z) : option (list master_dict) :=
  match op with
  | rankCandidates filtered =>
      get_master_ranking_by_like_with_except db client_id len_index len_return filtered
  | rankLiked => get_master_liked_client db client_id len_index len_return
  | rankNew now => get_master_new_registered db now client_id len_index len_return
  end.

(** [get_master_cities_new_registered]; [now] is what
    [datetime.datetime.now()] returns. *)
Definition get_master_cities_new_registered (db : Database) (now : Z) : list string :=
  let one_week_ago := now - week in
  unique (Master.city
            <$> filter (λ m, Master.is_blocked m = false
                             ∧ one_week_ago ≤ Master.date_of_reg m)
                  (master db)).

(** [create_client_styles] ([client_queries.py]): the chosen styles of the
    client are deleted first, in a transaction of their own; then one row
    per validated id that [Styles] knows is inserted.  When the loop raises,
    or the INSERT violates the foreign key to [client], the function logs
    and the second transaction stores nothing. *)
Definition create_client_styles (db : Database) (client_id : Z)
    (style_ids : list Z) : Database :=
  let db1 := delete_client_style db client_id in
  let style_ids := validate_style_ids style_ids in
  match styles_to_add db1 style_ids with
  | Some [] => db1
  | Some added =>
      if decide (client_id ∈ Client.client_id <$> client db1)
      then set_client_styles db1
             (client_styles db1 ++ (ClientStyles.mk client_id <$> added))
      else db1
  | None => db1
  end.

(** [create_master_styles] ([master_queries.py]), the same text for a
    master. *)
Definition create_master_styles (db : Database) (master_id : Z)
    (style_ids : list Z) : Database :=
  let db1 := delete_master_styles db master_id in
  let style_ids := validate_style_ids style_ids in
  match styles_to_add db1 style_ids with
  | Some [] => db1
  | Some added =>
      if decide (master_id ∈ Master.master_id <$> master db1)
      then set_master_styles db1
             (master_styles db1 ++ (MasterStyles.mk master_id <$> added))
      else db1
  | None => db1
  end.

(** The constraints that [models.py] declares on the modelled tables:
    primary keys, the unique pairs and the foreign keys. *)
Record consistent (db : Database) : Prop := mk_consistent {
  c_client_pk : client_pk db;
  c_master_pk : master_pk db;
  c_styles_pk : styles_pk db;
  c_likes_unique : unique_client_master_likes db;
  c_client_styles_unique : NoDup (client_styles db);
  c_master_styles_unique : NoDup (master_styles db);
  c_likes_fk :
    Forall (λ l, Likes.client_id l ∈ Client.client_id <$> client db
                 ∧ Likes.master_id l ∈ Master.master_id <$> master db) (likes db);
  c_client_styles_fk :
    Forall (λ cs, ClientStyles.client_id cs ∈ Client.client_id <$> client db
                  ∧ ClientStyles.style_id cs ∈ Styles.style_id <$> styles db)
      (client_styles db);
  c_master_styles_fk :
    Forall (λ ms, MasterStyles.master_id ms ∈ Master.master_id <$> master db
                  ∧ MasterStyles.style_id ms ∈ Styles.style_id <$> styles db)
      (master_styles db);
  c_master_photos_fk :
    Forall (λ p, MasterPhotos.master_id p ∈ Master.master_id <$> master db)
      (master_photos db)
}.

(** The modelled functions that write to the store. *)
Inductive mutation :=
  | call_create_like (client_id master_id : Z)
  | call_delete_like (client_id master_id : Z)
  | call_create_client_styles (client_id : Z) (style_ids : list Z)
  | call_create_master_styles (master_id : Z) (style_ids : list Z)
  | call_delete_client_style (client_id : Z)
  | call_delete_master_styles (master_id : Z)
  | call_create_master_photos (master_id : Z) (photo_paths : list string)
  | call_delete_master_photos (master_id : Z)
  | call_update_master_is_blocked (master_id : Z) (new_value : bool)
  | call_delete_master (master_id : Z)
  | call_delete_client (client_id : Z)
  | call_create_styles (styles_dict : list (Z * string)).

Definition perform (mu : mutation) (db : Database) : Database :=
  match mu with
  | call_create_like client_id master_id => (create_like db client_id master_id).2
  | call_delete_like client_id master_id => (delete_like db client_id master_id).2
  | call_create_client_styles client_id style_ids =>
      create_client_styles db client_id style_ids
  | call_create_master_styles master_id style_ids =>
      create_master_styles db master_id style_ids
  | call_delete_client_style client_id => delete_client_style db client_id
  | call_delete_master_styles master_id => delete_master_styles db master_id
  | call_create_master_photos master_id photo_paths =>
      create_master_photos db master_id photo_paths
  | call_delete_master_photos master_id => delete_master_photos db master_id
  | call_update_master_is_blocked master_id new_value =>
      (update_master_is_blocked db master_id new_value).2
  | call_delete_master master_id => delete_master db master_id
  | call_delete_client client_id => delete_client db client_id
  | call_create_styles styles_dict => create_styles db styles_dict
  end.

(** ** Derived notions used in the statements *)

(** The city clause and the membership test that a tier token selects. *)
Definition tier_clauses (filtered : string) : option (city_clause * membership) :=
  if decide (filtered = "all") then Some (city_eq, in_)
  else if decide (filtered = "city") then Some (city_eq, not_in)
  else if decide (filtered = "none") then Some (city_ne, in_)
  else None.

(** The ranked sequence of a tier for a requester: the rows of the request
    as the engine returns them, before any row is fetched. *)
Definition ranking (filtered : string) (db : Database) (client_id : Z)
    : list master_tuple :=
  match tier_clauses filtered, get_client_info_and_styles db client_id with
  | Some (cl, mb), Some (_, _, city, tattoo_type, list_styles) =>
      order_by_desc engine
        (like_request cl mb db client_id city tattoo_type list_styles)
  | _, _ => []
  end.

(** The part of a dictionary that comes from the ranked row. *)
Definition dict_tuple (d : master_dict) : master_tuple :=
  mk_tuple (d_master_id d) (d_name d) (d_city d) (d_about_master d) (d_likes d).

(** The number of stored likes of a master. *)
Definition likes_of (db : Database) (master_id : Z) : Z :=
  Z.of_nat (length (filter (λ l, Likes.master_id l = master_id) (likes db))).

(** The row of a master in every ranking request. *)
Definition tuple_of (db : Database) (m : Master.t) : master_tuple :=
  mk_tuple (Master.master_id m) (Master.name m) (Master.city m)
    (Master.about_master m) (likes_of db (Master.master_id m)).

Definition desc_likes (a b : master_dict) : Prop := d_likes b ≤ d_likes a.

(** Equal like counts in ascending order of the master id. *)
Definition ties_by_ascending_id (cards : list master_dict) : Prop :=
  ∀ i j a b, (i < j)%nat → cards !! i = Some a → cards !! j = Some b →
    d_likes a = d_likes b → d_master_id a < d_master_id b.

(** The slice [[start, start + size)] of a sequence. *)
Definition slice {A} (start size : nat) (l : list A) : list A :=
  take size (drop start l).

(** ** Pagination *)

Lemma fetch_loop_slice {A} (n : nat) (len_return : Z) (cursor last : list A) :
  fetch_loop (S n) len_return cursor last
  = slice (n * Z.to_nat len_return) (Z.to_nat len_return) cursor.
Proof.
  revert cursor last. induction n as [|n IH]; intros cursor last.
  - reflexivity.
  - change (fetch_loop (S (S n)) len_return cursor last)
      with (fetch_loop (S n) len_return (drop (Z.to_nat len_return) cursor)
              (take (Z.to_nat len_return) cursor)).
    rewrite IH. unfold slice. by rewrite drop_drop.
Qed.

Lemma fetch_loop_0 {A} (len_return : Z) (cursor last : list A) :
  fetch_loop 0 len_return cursor last = last.
Proof. reflexivity. Qed.

Lemma fetch_loop_exhausted {A} (n : nat) (len_return : Z) (cursor : list A) :
  take (Z.to_nat len_return) cursor = [] →
  fetch_loop n len_return (drop (Z.to_nat len_return) cursor) [] = [].
Proof.
  revert cursor. induction n as [|n IH]; intros cursor Hnil.
  - reflexivity.
  - assert (Hnext : take (Z.to_nat len_return) (drop (Z.to_nat len_return) cursor) = []).
    { destruct (Z.to_nat len_return) as [|k]; [done|].
      destruct cursor; [done | discriminate]. }
    simpl. rewrite Hnext. by apply IH.
Qed.

(** The early return of [get_master_new_registered] changes nothing: the
    page is the one the plain loop computes. *)
Lemma fetch_loop_or_return_eq {A} (n : nat) (len_return : Z) (cursor last : list A) :
  default [] (fetch_loop_or_return n len_return cursor last)
  = match n with O => last | _ => fetch_loop n len_return cursor [] end.
Proof.
  revert cursor last. induction n as [|n IH]; intros cursor last; [done|].
  simpl. destruct (take (Z.to_nat len_return) cursor) as [|x v] eqn:Hv.
  - simpl. symmetry. destruct n; [done|]. by apply fetch_loop_exhausted.
  - rewrite IH. destruct n; [done|]. by rewrite !fetch_loop_slice.
Qed.

Lemma number_iter_Some (len_index len_return : Z) :
  len_return ≠ 0 →
  number_iter len_index len_return
  = Some (len_index `div` len_return
          + (if decide (len_index `mod` len_return = 0) then 0 else 1)).
Proof. intros. unfold number_iter. by case_decide. Qed.

(** The number of batches is the rounded-up quotient. *)
Lemma number_iter_ceil (len_index len_return : Z) :
  0 ≤ len_index → 0 < len_return →
  number_iter len_index len_return
  = Some ((len_index + len_return - 1) `div` len_return).
Proof.
  intros Hi Hr. rewrite number_iter_Some by lia. f_equal.
  pose proof (Z.div_mod len_index len_return ltac:(lia)) as Hdm.
  pose proof (Z.mod_pos_bound len_index len_return Hr) as Hb.
  case_decide.
  - rewrite Z.add_0_r. apply (Z.div_unique _ _ _ (len_return - 1)); lia.
  - apply (Z.div_unique _ _ _ (len_index `mod` len_return - 1)); lia.
Qed.

(** ** Joining and splitting *)




(** ** Dictionaries of the enrichment step *)

Lemma foldl_insert_lookup {V} (f : Z → V) (l : list Z) (m : gmap Z V) (k : Z) :
  foldl (λ result key, <[key := f key]> result) m l !! k
  = if decide (k ∈ l) then Some (f k) else m !! k.
Proof.
  revert m. induction l as [|x l IH]; intros m.
  - destruct (decide (k ∈ [])) as [Hin|_]; [by apply elem_of_nil in Hin | done].
  - change (foldl (λ result key, <[key := f key]> result) (<[x := f x]> m) l !! k
            = if decide (k ∈ x :: l) then Some (f k) else m !! k).
    rewrite IH. destruct (decide (k ∈ l)) as [Hl|Hl].
    + rewrite decide_True; [done | by right].
    + destruct (decide (k = x)) as [->|Hne].
      * rewrite lookup_insert_eq. rewrite decide_True; [done | by left].
      * rewrite lookup_insert_ne by done.
        rewrite decide_False; [done|]. by intros [?|?]%elem_of_cons.
Qed.

Lemma dict_lookup_None {V} (pairs : list (Z * V)) (k : Z) :
  k ∉ pairs.*1 → dict pairs !! k = None.
Proof.
  unfold dict. generalize (∅ : gmap Z V) (lookup_empty (M:=gmap Z) (A:=V) k).
  induction pairs as [|[k' v] pairs IH]; intros m Hm Hk; simpl; [done|].
  apply IH.
  - rewrite lookup_insert_ne; [done|]. intros ->. apply Hk. by left.
  - intros Hin. apply Hk. by right.
Qed.

Lemma group_by_string_agg_fst (rows : list (Z * string)) :
  (group_by_string_agg rows).*1 = remove_dups rows.*1.
Proof.
  unfold group_by_string_agg. generalize (remove_dups rows.*1) as l.
  induction l as [|x l IH]; csimpl; [done | by rewrite IH].
Qed.

Lemma group_by_string_agg_keys (rows : list (Z * string)) (k : Z) :
  k ∈ (group_by_string_agg rows).*1 ↔ k ∈ rows.*1.
Proof. rewrite group_by_string_agg_fst. apply elem_of_remove_dups. Qed.

(** Every master of the page has an entry in both dictionaries. *)
Lemma get_master_list_photos_lookup db (list_master_id : list Z) (master_id : Z) :
  master_id ∈ list_master_id →
  is_Some (get_master_list_photos db list_master_id !! master_id).
Proof.
  intros Hin. unfold get_master_list_photos.
  rewrite (foldl_insert_lookup
             (λ master_id, match _ !! master_id with Some s => split s | None => [] end)).
  rewrite decide_True by done. eauto.
Qed.

Lemma get_master_list_selected_styles_lookup db (list_master_id : list Z) (master_id : Z) :
  master_id ∈ list_master_id →
  is_Some (get_master_list_selected_styles db list_master_id !! master_id).
Proof.
  intros Hin. unfold get_master_list_selected_styles.
  rewrite (foldl_insert_lookup
             (λ master_id, match _ !! master_id with Some s => split s | None => [] end)).
  rewrite decide_True by done. eauto.
Qed.

(** A master of the page without photo rows gets the empty list. *)
Lemma get_master_list_photos_empty db (list_master_id : list Z) (master_id : Z) :
  master_id ∈ list_master_id →
  (∀ p, p ∈ master_photos db → MasterPhotos.master_id p ≠ master_id) →
  get_master_list_photos db list_master_id !! master_id = Some [].
Proof.
  intros Hin Hno. unfold get_master_list_photos.
  rewrite (foldl_insert_lookup
             (λ master_id, match _ !! master_id with Some s => split s | None => [] end)).
  rewrite decide_True by done. rewrite dict_lookup_None; [done|].
  rewrite group_by_string_agg_keys, <- list_fmap_compose.
  intros (p & -> & Hp)%list_elem_of_fmap.
  apply list_elem_of_filter in Hp as [_ Hp]. by apply (Hno p).
Qed.

(** A master of the page without style rows gets the empty list. *)
Lemma get_master_list_selected_styles_empty db (list_master_id : list Z) (master_id : Z) :
  master_id ∈ list_master_id →
  (∀ ms, ms ∈ master_styles db → MasterStyles.master_id ms ≠ master_id) →
  get_master_list_selected_styles db list_master_id !! master_id = Some [].
Proof.
  intros Hin Hno. unfold get_master_list_selected_styles.
  rewrite (foldl_insert_lookup
             (λ master_id, match _ !! master_id with Some s => split s | None => [] end)).
  rewrite decide_True by done. rewrite dict_lookup_None; [done|].
  rewrite group_by_string_agg_keys. unfold master_style_names.
  intros (r & -> & Hr)%list_elem_of_fmap.
  apply list_elem_of_bind in Hr as (ms & Hr & Hms).
  apply list_elem_of_bind in Hr as (s & Hr & _).
  case_decide; [|by apply elem_of_nil in Hr].
  apply list_elem_of_singleton in Hr as ->. by apply (Hno ms).
Qed.

Lemma master_dicts_tuples styles_ photo_path (ts : list master_tuple) cards :
  master_dicts styles_ photo_path ts = Some cards → dict_tuple <$> cards = ts.
Proof.
  intros H%mapM_Some_1. induction H as [|t d ts cards Ht _ IH]; [done|].
  csimpl. rewrite IH. f_equal.
  simpl in Ht.
  destruct (styles_ !! t_master_id t); [|done].
  destruct (photo_path !! t_master_id t); [|done].
  simplify_eq/=. by destruct t.
Qed.

(** The closing loop never raises on the dictionaries built for the page. *)
Lemma master_dicts_page db (ts : list master_tuple) :
  is_Some (master_dicts
             (get_master_list_selected_styles db (t_master_id <$> ts))
             (get_master_list_photos db (t_master_id <$> ts)) ts).
Proof.
  apply mapM_is_Some_2, Forall_forall. intros t Ht. simpl.
  assert (Hin : t_master_id t ∈ t_master_id <$> ts) by by apply list_elem_of_fmap_2.
  destruct (get_master_list_selected_styles_lookup db _ _ Hin) as [s ->].
  destruct (get_master_list_photos_lookup db _ _ Hin) as [p ->]. simpl. eauto.
Qed.

(** In the tier functions and in [get_master_new_registered] a master of
    the page without photo rows, or without style rows, gets the empty list
    for that field. *)
Lemma master_dicts_enrichment db (ts : list master_tuple) cards d :
  master_dicts
    (get_master_list_selected_styles db (t_master_id <$> ts))
    (get_master_list_photos db (t_master_id <$> ts)) ts = Some cards →
  d ∈ cards →
  ((∀ p, p ∈ master_photos db → MasterPhotos.master_id p ≠ d_master_id d) →
   d_photo_path d = [])
  ∧ ((∀ ms, ms ∈ master_styles db → MasterStyles.master_id ms ≠ d_master_id d) →
     d_styles d = []).
Proof.
  intros Hcards Hd.
  pose proof (master_dicts_tuples _ _ _ _ Hcards) as Htuples.
  assert (Hid : d_master_id d ∈ t_master_id <$> ts).
  { rewrite <- Htuples, <- list_fmap_compose.
    by apply (list_elem_of_fmap_2 (t_master_id ∘ dict_tuple)). }
  apply mapM_Some_1 in Hcards.
  apply list_elem_of_lookup in Hd as [i Hi].
  destruct (Forall2_lookup_r _ _ _ _ _ Hcards Hi) as (t & _ & Ht). simpl in Ht.
  destruct (get_master_list_selected_styles db _ !! t_master_id t)
    as [s|] eqn:Hs; [|done].
  destruct (get_master_list_photos db _ !! t_master_id t) as [p|] eqn:Hp; [|done].
  simplify_eq/=. split; intros Hno.
  - rewrite get_master_list_photos_empty in Hp by done. congruence.
  - rewrite get_master_list_selected_styles_empty in Hs by done. congruence.
Qed.

(** ** Order *)

Lemma desc_likes_of_tuples (cards : list master_dict) :
  StronglySorted desc_count_likes (dict_tuple <$> cards) →
  StronglySorted desc_likes cards.
Proof.
  induction cards as [|d cards IH]; csimpl; intros H; [constructor|].
  apply StronglySorted_inv in H as [Hs Hall]. constructor; [by apply IH|].
  rewrite Forall_fmap in Hall. exact Hall.
Qed.

Lemma slice_sorted {A} (R : relation A) (start size : nat) (l : list A) :
  StronglySorted R l → StronglySorted R (slice start size l).
Proof.
  intros H. unfold slice.
  rewrite <- (take_drop start l) in H. apply StronglySorted_app_1_r in H.
  rewrite <- (take_drop size (drop start l)) in H.
  by apply StronglySorted_app_1_l in H.
Qed.

Lemma slice_subseteq {A} (start size : nat) (l : list A) : slice start size l ⊆ l.
Proof.
  unfold slice. etrans; [apply subseteq_take | apply subseteq_drop].
Qed.

Lemma fetch_loop_sorted {A} (R : relation A) n len_return (cursor : list A) :
  StronglySorted R cursor → StronglySorted R (fetch_loop n len_return cursor []).
Proof.
  intros H. destruct n; [constructor|]. rewrite fetch_loop_slice. by apply slice_sorted.
Qed.

Lemma fetch_loop_subseteq {A} n len_return (cursor : list A) :
  fetch_loop n len_return cursor [] ⊆ cursor.
Proof.
  destruct n; [by intros ? ?%elem_of_nil|]. rewrite fetch_loop_slice. apply slice_subseteq.
Qed.

(** ** The requests *)

(** [count(Likes.master_id)] over the outer join is the number of likes of
    the master, zero when there is none. *)
Lemma count_outerjoin_likes db m :
  count (outerjoin_likes db m) = likes_of db (Master.master_id m).
Proof.
  unfold count, outerjoin_likes, likes_of.
  destruct (filter _ (likes db)) as [|l ls]; [done|].
  generalize (l :: ls) as ks. intros ks. f_equal.
  induction ks as [|k ks IH]; csimpl; [done | by rewrite IH].
Qed.

Lemma ranking_request_eq db (where_ : Master.t → Prop) `{!∀ m, Decision (where_ m)} :
  ranking_request db where_ = tuple_of db <$> filter where_ (master db).
Proof.
  unfold ranking_request, tuple_of. apply list_fmap_ext. intros _ m _.
  by rewrite count_outerjoin_likes.
Qed.

Lemma elem_of_ranking_request db (where_ : Master.t → Prop)
    `{!∀ m, Decision (where_ m)} (t : master_tuple) :
  t ∈ ranking_request db where_
  ↔ ∃ m, m ∈ master db ∧ where_ m ∧ t = tuple_of db m.
Proof.
  rewrite ranking_request_eq, list_elem_of_fmap. split.
  - intros (m & -> & [? ?]%list_elem_of_filter). eauto.
  - intros (m & ? & ? & ->). exists m. split; [done|]. by apply list_elem_of_filter.
Qed.

Lemma elem_of_join_master_styles db (m : Master.t) (ms : MasterStyles.t) :
  (m, ms) ∈ join_master_styles db
  ↔ m ∈ master db ∧ ms ∈ master_styles db
    ∧ MasterStyles.master_id ms = Master.master_id m.
Proof.
  unfold join_master_styles. rewrite list_elem_of_bind. split.
  - intros (m' & (ms' & Hin & ?)%list_elem_of_bind & ?).
    case_decide; [|by apply elem_of_nil in Hin].
    apply list_elem_of_singleton in Hin. by simplify_eq.
  - intros (? & ? & ?). exists m. split; [|done].
    apply list_elem_of_bind. exists ms. split; [|done].
    rewrite decide_True by done. by apply list_elem_of_singleton.
Qed.

(** ** The tier functions unfolded *)

Lemma tier_token_cases (filtered : string) :
  filtered ∈ ["all"; "city"; "none"]
  ↔ filtered = "all" ∨ filtered = "city" ∨ filtered = "none".
Proof. rewrite !elem_of_cons, elem_of_nil. tauto. Qed.

Lemma with_except_unknown db client_id len_index len_return filtered :
  tier_clauses filtered = None →
  get_master_ranking_by_like_with_except db client_id len_index len_return filtered
  = Some [].
Proof.
  unfold tier_clauses, get_master_ranking_by_like_with_except.
  destruct (decide (filtered = "all")); [done|].
  destruct (decide (filtered = "city")); [done|].
  destruct (decide (filtered = "none")); [done|].
  intros _. rewrite decide_True; [done|].
  rewrite tier_token_cases. by intros [?|[?|?]].
Qed.

Lemma with_except_tier db client_id len_index len_return filtered cl mb :
  tier_clauses filtered = Some (cl, mb) →
  get_master_ranking_by_like_with_except db client_id len_index len_return filtered
  = ranking_by_like cl mb db client_id len_index len_return.
Proof.
  unfold tier_clauses, get_master_ranking_by_like_with_except.
  destruct (decide (filtered = "all")) as [->|].
  { intros [= <- <-]. by rewrite decide_False by (intros Hn; by apply Hn, tier_token_cases; left). }
  destruct (decide (filtered = "city")) as [->|].
  { intros [= <- <-]. by rewrite decide_False by (intros Hn; by apply Hn, tier_token_cases; right; left). }
  destruct (decide (filtered = "none")) as [->|]; [|done].
  intros [= <- <-]. by rewrite decide_False by (intros Hn; by apply Hn, tier_token_cases; right; right).
Qed.

Lemma ranking_by_like_missing cl mb db client_id len_index len_return :
  get_client_info_and_styles db client_id = None →
  ranking_by_like cl mb db client_id len_index len_return = Some [].
Proof. intros H. unfold ranking_by_like. by rewrite H. Qed.

Lemma ranking_by_like_found cl mb db client_id len_index len_return
    id name city tattoo_type list_styles n :
  get_client_info_and_styles db client_id
  = Some (id, name, city, tattoo_type, list_styles) →
  number_iter len_index len_return = Some n →
  ∃ cards,
    ranking_by_like cl mb db client_id len_index len_return = Some cards
    ∧ dict_tuple <$> cards
      = fetch_loop (Z.to_nat n) len_return
          (order_by_desc engine
             (like_request cl mb db client_id city tattoo_type list_styles)) [].
Proof.
  intros Hc Hn. unfold ranking_by_like. rewrite Hc, Hn. simpl.
  destruct (master_dicts_page db
              (fetch_loop (Z.to_nat n) len_return
                 (order_by_desc engine
                    (like_request cl mb db client_id city tattoo_type list_styles)) []))
    as [cards Hcards].
  exists cards. split; [done|]. by apply master_dicts_tuples in Hcards.
Qed.

Lemma ranking_by_like_inv cl mb db client_id len_index len_return cards :
  ranking_by_like cl mb db client_id len_index len_return = Some cards →
  ∃ city tattoo_type list_styles n,
    dict_tuple <$> cards
    = fetch_loop n len_return
        (order_by_desc engine
           (like_request cl mb db client_id city tattoo_type list_styles)) [].
Proof.
  intros H.
  destruct (get_client_info_and_styles db client_id)
    as [[[[[id name] city] tattoo_type] list_styles]|] eqn:Hc.
  - destruct (number_iter len_index len_return) as [n|] eqn:Hn.
    + destruct (ranking_by_like_found cl mb _ _ _ _ _ _ _ _ _ _ Hc Hn)
        as (cards' & Hrun & Heq).
      rewrite Hrun in H. simplify_eq. eauto.
    + unfold ranking_by_like in H. by rewrite Hc, Hn in H.
  - rewrite ranking_by_like_missing in H by done. simplify_eq.
    by exists "", "", [], O.
Qed.

(** ** The two auxiliary views unfolded *)

Lemma mapM_seq_tuples (L : list master_tuple) (g : nat → option master_dict) cards :
  (∀ i d, g i = Some d → L !! i = Some (dict_tuple d)) →
  mapM g (seq 0 (length L)) = Some cards → dict_tuple <$> cards = L.
Proof.
  intros Hg H%mapM_Some_1.
  pose proof (Forall2_length _ _ _ H) as Hlen. rewrite length_seq in Hlen.
  apply (list_eq_same_length _ _ (length L)); [done | by rewrite length_fmap |].
  intros i x y Hi Hx Hy.
  apply list_lookup_fmap_Some in Hx as (d & -> & Hd).
  assert (Hseq : seq 0 (length L) !! i = Some i) by by apply lookup_seq_lt.
  destruct (Forall2_lookup_l _ _ _ _ _ H Hseq) as (d' & Hd' & Hgi).
  rewrite Hd in Hd'. simplify_eq. apply Hg in Hgi. congruence.
Qed.

Lemma get_master_liked_client_inv db client_id len_index len_return cards :
  get_master_liked_client db client_id len_index len_return = Some cards →
  ∃ n,
    dict_tuple <$> cards
    = fetch_loop n len_return
        (order_by_desc engine
           (ranking_request db
              (λ m, Master.master_id m
                      ∈ Likes.master_id
                          <$> filter (λ l, Likes.client_id l = client_id) (likes db)
                    ∧ Master.is_blocked m = false))) [].
Proof.
  unfold get_master_liked_client. intros H.
  destruct (number_iter len_index len_return) as [n|]; [|done]. simpl in H.
  exists (Z.to_nat n).
  set (L := fetch_loop (Z.to_nat n) len_return _ []) in *. clearbody L.
  destruct (Z.to_nat n); [done|]. simpl in H.
  revert H. apply mapM_seq_tuples. intros i d Hi.
  destruct (L !! i) as [t|]; [|done]. simpl in Hi.
  repeat (match type of Hi with
          | (?o ≫= _) = Some _ => destruct o; [|done]; simpl in Hi
          end).
  simplify_eq. by destruct t.
Qed.

Lemma get_master_new_registered_inv db now client_id len_index len_return cards :
  get_master_new_registered db now client_id len_index len_return = Some cards →
  ∃ n,
    dict_tuple <$> cards
    = fetch_loop n len_return
        (order_by_desc engine
           (ranking_request db
              (λ m, Master.master_id m
                      ∈ Master.master_id
                          <$> filter
                                (λ m, Some (Master.city m)
                                      = head (Client.city
                                                <$> filter (λ c, Client.client_id c = client_id)
                                                      (client db))
                                      ∧ now - week < Master.date_of_reg m)
                                (master db)
                    ∧ Master.is_blocked m = false))) [].
Proof.
  unfold get_master_new_registered. intros H.
  destruct (number_iter len_index len_return) as [n|]; [|done]. simpl in H.
  exists (Z.to_nat n).
  match type of H with
  | match fetch_loop_or_return ?k ?r ?c [] with _ => _ end = _ =>
      pose proof (fetch_loop_or_return_eq k r c []) as Heq;
      destruct (fetch_loop_or_return k r c []) as [l|]
  end.
  - apply master_dicts_tuples in H. rewrite H. simpl in Heq. rewrite Heq.
    by destruct (Z.to_nat n).
  - simplify_eq. simpl in Heq. rewrite Heq. by destruct (Z.to_nat n).
Qed.

(** Whatever the operation, the returned page is a batch of a request that
    ranges over masters that are not blocked. *)
Lemma run_inv op db client_id len_index len_return cards :
  run op db client_id len_index len_return = Some cards →
  ∃ (request : list master_tuple) (n : nat),
    (∀ t, t ∈ request →
       ∃ m, m ∈ master db ∧ Master.is_blocked m = false ∧ t = tuple_of db m)
    ∧ dict_tuple <$> cards
      = fetch_loop n len_return (order_by_desc engine request) [].
Proof.
  destruct op as [filtered| |now]; simpl; intros H.
  - destruct (tier_clauses filtered) as [[cl mb]|] eqn:Ht.
    + rewrite (with_except_tier _ _ _ _ _ _ _ Ht) in H.
      apply ranking_by_like_inv in H as (city & tattoo_type & list_styles & n & H).
      eexists _, n. split; [|exact H].
      intros t (m & ? & (? & ? & ?) & ->)%elem_of_ranking_request. eauto.
    + rewrite with_except_unknown in H by done. simplify_eq.
      exists [], O. split; [|done]. by intros t ?%elem_of_nil.
  - apply get_master_liked_client_inv in H as [n H].
    eexists _, n. split; [|exact H].
    intros t (m & ? & (? & ?) & ->)%elem_of_ranking_request. eauto.
  - apply get_master_new_registered_inv in H as [n H].
    eexists _, n. split; [|exact H].
    intros t (m & ? & (? & ?) & ->)%elem_of_ranking_request. eauto.
Qed.

Lemma run_page_elem op db client_id len_index len_return cards d :
  run op db client_id len_index len_return = Some cards → d ∈ cards →
  ∃ m, m ∈ master db ∧ Master.is_blocked m = false ∧ dict_tuple d = tuple_of db m.
Proof.
  intros (request & n & Hreq & Heq)%run_inv Hd. apply Hreq.
  rewrite <- (order_by_desc_perm engine request).
  apply (fetch_loop_subseteq n len_return). rewrite <- Heq.
  by apply list_elem_of_fmap_2.
Qed.

(** A chosen style list that names the wildcard is stored as the wildcard
    alone. *)
Lemma validate_style_ids_wildcard (style_ids : list Z) :
  NUMBER_ALL_STYLES ∈ style_ids →
  validate_style_ids style_ids = [NUMBER_ALL_STYLES].
Proof.
  intros Hin. unfold validate_style_ids. rewrite decide_True; [done|].
  by apply elem_of_elements, elem_of_list_to_set.
Qed.

(** ** Properties of the ranking operations *)

Lemma NoDup_fmap_elem_inj {A B} (f : A → B) (l : list A) (x y : A) :
  NoDup (f <$> l) → x ∈ l → y ∈ l → f x = f y → x = y.
Proof.
  induction l as [|a l IH]; csimpl; intros Hnd Hx Hy Hf.
  - by apply elem_of_nil in Hx.
  - apply NoDup_cons in Hnd as [Ha Hnd].
    apply elem_of_cons in Hx as [->|Hx]; apply elem_of_cons in Hy as [->|Hy].
    + done.
    + exfalso. apply Ha. rewrite Hf. by apply list_elem_of_fmap_2.
    + exfalso. apply Ha. rewrite <- Hf. by apply list_elem_of_fmap_2.
    + by apply IH.
Qed.

Lemma master_pk_inj db (m1 m2 : Master.t) :
  master_pk db → m1 ∈ master db → m2 ∈ master db →
  Master.master_id m1 = Master.master_id m2 → m1 = m2.
Proof. apply NoDup_fmap_elem_inj. Qed.

(** C1, as amended: whatever the requester and the operation (the three
    tiers, the liked view, the newly-registered view), the returned page is
    sorted by like count in descending order, and the like count of a
    provider is the number of its like rows, zero when it has none.  The
    order among providers with equal like counts is the engine's. *)
Theorem ranking_sorted_by_likes op db client_id len_index len_return cards :
  run op db client_id len_index len_return = Some cards →
  StronglySorted desc_likes cards
  ∧ Forall (λ d, d_likes d = likes_of db (d_master_id d)) cards.
Proof.
  intros Hrun. split.
  - apply run_inv in Hrun as (request & n & _ & Heq).
    apply desc_likes_of_tuples. rewrite Heq.
    apply fetch_loop_sorted, order_by_desc_sorted.
  - apply Forall_forall. intros d Hd.
    destruct (run_page_elem _ _ _ _ _ _ _ Hrun Hd) as (m & _ & _ & Hm).
    apply (f_equal t_count_likes) in Hm as Hl.
    apply (f_equal t_master_id) in Hm as Hi. simpl in Hl, Hi. congruence.
Qed.

(** C4: in no ranking operation (tiers all, city and none, the liked view,
    the newly-registered view) does a provider whose blocked flag is true
    appear in the returned list. *)
Theorem blocked_never_ranked op db client_id len_index len_return cards m :
  master_pk db →
  run op db client_id len_index len_return = Some cards →
  m ∈ master db → Master.is_blocked m = true →
  Master.master_id m ∉ d_master_id <$> cards.
Proof.
  intros Hpk Hrun Hm Hblocked (d & Hid & Hd)%list_elem_of_fmap.
  destruct (run_page_elem _ _ _ _ _ _ _ Hrun Hd) as (m' & Hm' & Hfree & Heq).
  apply (f_equal t_master_id) in Heq. simpl in Heq.
  assert (m = m') as -> by (apply (master_pk_inj db); congruence).
  congruence.
Qed.

(** C5: the clause derived from the requester's preference excludes exactly
    the providers of type Color for Monochrome, exactly those of type
    Monochrome for Color, and nobody for Both; a provider of type Both is
    excluded for no preference. *)
Theorem filter_type_table (m : Master.t) :
  NoDup [TATTOO_TYPE_MONOCHROME; TATTOO_TYPE_COLOR; TATTOO_TYPE_BOTH] →
  (¬ filter_type TATTOO_TYPE_MONOCHROME m ↔ Master.tattoo_type m = TATTOO_TYPE_COLOR)
  ∧ (¬ filter_type TATTOO_TYPE_COLOR m ↔ Master.tattoo_type m = TATTOO_TYPE_MONOCHROME)
  ∧ filter_type TATTOO_TYPE_BOTH m
  ∧ (Master.tattoo_type m = TATTOO_TYPE_BOTH → ∀ preference, filter_type preference m).
Proof.
  intros Hnd.
  assert (TATTOO_TYPE_MONOCHROME ≠ TATTOO_TYPE_COLOR
          ∧ TATTOO_TYPE_MONOCHROME ≠ TATTOO_TYPE_BOTH
          ∧ TATTOO_TYPE_COLOR ≠ TATTOO_TYPE_BOTH) as (Hmc & Hmb & Hcb).
  { apply NoDup_cons in Hnd as [H1 Hnd]. apply NoDup_cons in Hnd as [H2 _].
    apply not_elem_of_cons in H1 as [? H1]. apply not_elem_of_cons in H1 as [? _].
    apply not_elem_of_cons in H2 as [? _]. done. }
  unfold filter_type. repeat split.
  - rewrite decide_True by done. apply dec_stable.
  - rewrite decide_True by done. intros Heq Hne. by apply Hne.
  - rewrite decide_False, decide_True by done. apply dec_stable.
  - rewrite decide_False, decide_True by done. intros Heq Hne. by apply Hne.
  - by rewrite !decide_False.
  - intros Heq preference. rewrite Heq.
    destruct (decide (preference = TATTOO_TYPE_MONOCHROME)); [done|].
    destruct (decide (preference = TATTOO_TYPE_COLOR)); done.
Qed.

(** ** Pages of the tiers *)

Lemma tier_clauses_known filtered :
  filtered ∈ ["all"; "city"; "none"] → is_Some (tier_clauses filtered).
Proof.
  intros [-> | [-> | ->]]%tier_token_cases; by eexists.
Qed.

Lemma ranking_found filtered cl mb db client_id id name city tattoo_type list_styles :
  tier_clauses filtered = Some (cl, mb) →
  get_client_info_and_styles db client_id
  = Some (id, name, city, tattoo_type, list_styles) →
  ranking filtered db client_id
  = order_by_desc engine
      (like_request cl mb db client_id city tattoo_type list_styles).
Proof. intros Ht Hc. unfold ranking. by rewrite Ht, Hc. Qed.

Lemma ranking_missing filtered db client_id :
  get_client_info_and_styles db client_id = None → ranking filtered db client_id = [].
Proof.
  intros Hc. unfold ranking. rewrite Hc. by destruct (tier_clauses filtered) as [[? ?]|].
Qed.

Lemma slice_nil {A} (start size : nat) : slice start size (@nil A) = [].
Proof. unfold slice. by rewrite drop_nil, take_nil. Qed.

Lemma ceil_pos (len_index len_return : Z) :
  0 < len_index → 0 < len_return →
  1 ≤ (len_index + len_return - 1) `div` len_return.
Proof.
  intros Hi Hr.
  apply (Z.div_le_lower_bound _ _ 1); lia.
Qed.

Lemma ceil_multiple (len_index len_return : Z) :
  0 < len_return → len_index `mod` len_return = 0 →
  ((len_index + len_return - 1) `div` len_return - 1) * len_return
  = len_index - len_return.
Proof.
  intros Hr Hm.
  pose proof (Z.div_mod len_index len_return ltac:(lia)) as Hdm.
  rewrite Hm, Z.add_0_r in Hdm.
  rewrite <- (Z.div_unique (len_index + len_return - 1) len_return
                (len_index `div` len_return) (len_return - 1)); lia.
Qed.

(** One call of a tier returns the last of [⌈len_index / len_return⌉]
    batches of the ranked sequence. *)
Lemma tier_page filtered db client_id len_index len_return :
  filtered ∈ ["all"; "city"; "none"] → 0 ≤ len_index → 0 < len_return →
  ∃ cards,
    get_master_ranking_by_like_with_except db client_id len_index len_return filtered
    = Some cards
    ∧ dict_tuple <$> cards
      = if decide (len_index = 0) then []
        else slice
               (Z.to_nat (((len_index + len_return - 1) `div` len_return - 1)
                          * len_return))
               (Z.to_nat len_return) (ranking filtered db client_id).
Proof.
  intros [[cl mb] Ht]%tier_clauses_known Hi Hr.
  rewrite (with_except_tier _ _ _ _ _ _ _ Ht).
  destruct (get_client_info_and_styles db client_id)
    as [[[[[id name] city] tattoo_type] list_styles]|] eqn:Hc.
  - destruct (ranking_by_like_found cl mb _ _ _ _ _ _ _ _ _ _ Hc
                (number_iter_ceil _ _ Hi Hr)) as (cards & Hrun & Heq).
    exists cards. split; [done|]. rewrite Heq.
    rewrite (ranking_found _ _ _ _ _ _ _ _ _ _ Ht Hc).
    case_decide as H0.
    + subst len_index. rewrite Z.add_0_l, Z.div_small by lia. done.
    + pose proof (ceil_pos len_index len_return ltac:(lia) Hr) as Hn.
      set (n := (len_index + len_return - 1) `div` len_return) in *.
      replace (Z.to_nat n) with (S (Z.to_nat (n - 1))) by lia.
      rewrite fetch_loop_slice. f_equal. rewrite Z2Nat.inj_mul; lia.
  - exists []. split; [by apply ranking_by_like_missing|].
    rewrite ranking_missing by done. rewrite slice_nil. by case_decide.
Qed.

(** ** The candidate sets of the tiers *)

Lemma elem_of_ranking filtered cl mb db client_id id name city tattoo_type
    list_styles (master_id : Z) :
  tier_clauses filtered = Some (cl, mb) →
  get_client_info_and_styles db client_id
  = Some (id, name, city, tattoo_type, list_styles) →
  master_id ∈ t_master_id <$> ranking filtered db client_id
  ↔ ∃ m, m ∈ master db ∧ Master.master_id m = master_id
         ∧ city_where cl city m ∧ Master.is_blocked m = false
         ∧ member_where mb master_id
             (all_master_client cl db client_id city tattoo_type list_styles).
Proof.
  intros Ht Hc. rewrite (ranking_found _ _ _ _ _ _ _ _ _ _ Ht Hc).
  rewrite (order_by_desc_perm engine). rewrite list_elem_of_fmap.
  unfold like_request. split.
  - intros (t & -> & (m & Hm & (? & ? & ?) & ->)%elem_of_ranking_request).
    exists m. by repeat split.
  - intros (m & Hm & <- & ? & ? & ?). exists (tuple_of db m). split; [done|].
    apply elem_of_ranking_request. exists m. by repeat split.
Qed.

Lemma tier_clauses_all : tier_clauses "all" = Some (city_eq, in_).
Proof. reflexivity. Qed.

Lemma tier_clauses_city : tier_clauses "city" = Some (city_eq, not_in).
Proof. reflexivity. Qed.

Lemma tier_clauses_none : tier_clauses "none" = Some (city_ne, in_).
Proof. reflexivity. Qed.

(** The subquery when the requester's styles are the wildcard alone. *)
Lemma elem_of_all_master_client_wildcard cl db client_id city tattoo_type (master_id : Z) :
  master_id ∈ all_master_client cl db client_id city tattoo_type [NUMBER_ALL_STYLES]
  ↔ ∃ m ms, m ∈ master db ∧ ms ∈ master_styles db
            ∧ MasterStyles.master_id ms = Master.master_id m
            ∧ Master.master_id m = master_id
            ∧ filter_type tattoo_type m ∧ Master.is_blocked m = false
            ∧ city_where cl city m.
Proof.
  unfold all_master_client. rewrite decide_True by done.
  rewrite elem_of_remove_dups, list_elem_of_fmap. split.
  - intros ([m ms] & -> & [(? & ? & ?) Hj]%list_elem_of_filter).
    apply elem_of_join_master_styles in Hj as (? & ? & ?). simpl in *.
    exists m, ms. by repeat split.
  - intros (m & ms & ? & ? & Hid & <- & ? & ? & ?). exists (m, ms). split; [done|].
    apply list_elem_of_filter. split; [done|]. by apply elem_of_join_master_styles.
Qed.

(** C3: for a requester whose chosen styles are exactly the wildcard, the
    candidates of tier "all" are the providers of the requester's city that
    are not blocked, pass the tattoo-type filter and hold at least one style
    row, whichever styles those rows name. *)
Theorem wildcard_tier_all db client_id id name city tattoo_type (master_id : Z) :
  get_client_info_and_styles db client_id
  = Some (id, name, city, tattoo_type, [NUMBER_ALL_STYLES]) →
  master_id ∈ t_master_id <$> ranking "all" db client_id
  ↔ ∃ m, m ∈ master db ∧ Master.master_id m = master_id
         ∧ Master.city m = city ∧ Master.is_blocked m = false
         ∧ filter_type tattoo_type m
         ∧ ∃ ms, ms ∈ master_styles db ∧ MasterStyles.master_id ms = master_id.
Proof.
  intros Hc. rewrite (elem_of_ranking _ _ _ _ _ _ _ _ _ _ _ tier_clauses_all Hc).
  simpl. setoid_rewrite elem_of_all_master_client_wildcard. split.
  - intros (m & ? & ? & ? & ? & m' & ms & ? & ? & ? & ? & ? & ? & ?).
    exists m'. repeat split; try done. exists ms. split; [done|]. congruence.
  - intros (m & ? & ? & ? & ? & ? & ms & ? & ?).
    exists m. repeat split; try done. exists m, ms. repeat split; try done. congruence.
Qed.

(** C6: for one requester and one snapshot the candidate sets of the three
    tiers are pairwise disjoint. *)
Theorem tiers_disjoint db client_id (master_id : Z) :
  master_pk db →
  ¬ (master_id ∈ t_master_id <$> ranking "all" db client_id
     ∧ master_id ∈ t_master_id <$> ranking "city" db client_id)
  ∧ ¬ (master_id ∈ t_master_id <$> ranking "all" db client_id
       ∧ master_id ∈ t_master_id <$> ranking "none" db client_id)
  ∧ ¬ (master_id ∈ t_master_id <$> ranking "city" db client_id
       ∧ master_id ∈ t_master_id <$> ranking "none" db client_id).
Proof.
  intros Hpk.
  destruct (get_client_info_and_styles db client_id)
    as [[[[[id name] city] tattoo_type] list_styles]|] eqn:Hc.
  - rewrite (elem_of_ranking _ _ _ _ _ _ _ _ _ _ _ tier_clauses_all Hc).
    rewrite (elem_of_ranking _ _ _ _ _ _ _ _ _ _ _ tier_clauses_city Hc).
    rewrite (elem_of_ranking _ _ _ _ _ _ _ _ _ _ _ tier_clauses_none Hc).
    simpl. repeat split.
    + intros [(m1 & _ & _ & _ & _ & Hin) (m2 & _ & _ & _ & _ & Hout)]. done.
    + intros [(m1 & ? & ? & Heq & _) (m2 & ? & ? & Hne & _)].
      assert (m1 = m2) as -> by (apply (master_pk_inj db); congruence). done.
    + intros [(m1 & ? & ? & Heq & _) (m2 & ? & ? & Hne & _)].
      assert (m1 = m2) as -> by (apply (master_pk_inj db); congruence). done.
  - rewrite !ranking_missing by done. repeat split; by intros [?%elem_of_nil _].
Qed.

(** ** Requesters the lookup does not find *)

Lemma get_client_info_and_styles_None db client_id :
  (∀ c cs, c ∈ client db → cs ∈ client_styles db →
     Client.client_id c = client_id → ClientStyles.client_id cs ≠ client_id) →
  get_client_info_and_styles db client_id = None.
Proof.
  intros Hno. unfold get_client_info_and_styles.
  assert (join_client_styles db client_id = []) as ->; [|done].
  apply elem_of_nil_inv. intros [c cs] Hin. unfold join_client_styles in Hin.
  apply list_elem_of_bind in Hin as (c' & Hin & Hc).
  apply list_elem_of_bind in Hin as (cs' & Hin & Hcs).
  case_decide as Hd; [|by apply elem_of_nil in Hin].
  destruct Hd as [Hd1 Hd2]. apply (Hno c' cs'); congruence.
Qed.

(** C9: whatever the tier token, the index and the page size, a requester
    id that no requester record carries yields the empty list, not an
    error. *)
Theorem missing_requester_empty db client_id len_index len_return filtered :
  (∀ c, c ∈ client db → Client.client_id c ≠ client_id) →
  get_master_ranking_by_like_with_except db client_id len_index len_return filtered
  = Some [].
Proof.
  intros Hno.
  destruct (tier_clauses filtered) as [[cl mb]|] eqn:Ht.
  - rewrite (with_except_tier _ _ _ _ _ _ _ Ht). apply ranking_by_like_missing.
    apply get_client_info_and_styles_None. intros c cs Hc _ Heq. by apply Hno in Hc.
  - by apply with_except_unknown.
Qed.

(** C10: a requester record without any chosen-style row is treated like a
    missing requester: the lookup joins the requester with its style rows
    and finds nothing, so every tier returns the empty list. *)
Theorem requester_without_styles_empty db client_id len_index len_return filtered :
  (∃ c, c ∈ client db ∧ Client.client_id c = client_id) →
  (∀ cs, cs ∈ client_styles db → ClientStyles.client_id cs ≠ client_id) →
  filtered ∈ ["all"; "city"; "none"] →
  get_client_info_and_styles db client_id = None
  ∧ get_master_ranking_by_like_with_except db client_id len_index len_return filtered
    = Some [].
Proof.
  intros _ Hno [[cl mb] Ht]%tier_clauses_known.
  assert (Hc : get_client_info_and_styles db client_id = None).
  { apply get_client_info_and_styles_None. intros c cs _ Hcs _. by apply Hno. }
  split; [done|].
  rewrite (with_except_tier _ _ _ _ _ _ _ Ht). by apply ranking_by_like_missing.
Qed.

(** ** Auxiliary facts about lists and snapshots *)

Lemma filter_all {A} (P : A → Prop) `{!∀ x, Decision (P x)} (l : list A) :
  Forall P l → filter P l = l.
Proof.
  induction 1 as [|x l Hx _ IH]; [done|].
  rewrite filter_cons, decide_True by done. by rewrite IH.
Qed.

Lemma filter_none {A} (P : A → Prop) `{!∀ x, Decision (P x)} (l : list A) :
  Forall (λ x, ¬ P x) l → filter P l = [].
Proof.
  induction 1 as [|x l Hx _ IH]; [done|].
  by rewrite filter_cons, decide_False.
Qed.

Lemma database_eta db :
  mkDatabase (client db) (master db) (likes db) (styles db) (client_styles db)
    (master_styles db) (master_photos db) = db.
Proof. by destruct db. Qed.

Lemma like_pair (l : Likes.t) client_id master_id :
  Likes.client_id l = client_id ∧ Likes.master_id l = master_id
  ↔ l = Likes.mk client_id master_id.
Proof. destruct l; simpl. split; [by intros [-> ->] | by intros [= -> ->]]. Qed.


(** ** Blocking *)

(** X4: after [update_master_is_blocked] has set the flag of a master, no
    ranking operation returns that master, whatever the requester and the
    page. *)
Theorem blocked_master_hidden db master_id op client_id len_index len_return cards :
  run op (update_master_is_blocked db master_id true).2
    client_id len_index len_return = Some cards →
  master_id ∉ d_master_id <$> cards.
Proof.
  intros Hrun (d & -> & Hd)%list_elem_of_fmap.
  destruct (run_page_elem _ _ _ _ _ _ _ Hrun Hd) as (m' & Hm' & Hfree & Heq).
  apply (f_equal t_master_id) in Heq. simpl in Heq, Hm'.
  apply list_elem_of_fmap in Hm' as (m & -> & _).
  case_decide as Hid; [done|]. congruence.
Qed.


(** ** The contents of the auxiliary views *)

(** X6: every provider that the liked view returns was liked by the
    requester. *)
Theorem liked_view_cards_liked db client_id len_index len_return cards d :
  get_master_liked_client db client_id len_index len_return = Some cards →
  d ∈ cards →
  Likes.mk client_id (d_master_id d) ∈ likes db.
Proof.
  intros [n Heq]%get_master_liked_client_inv Hd.
  assert (Ht : dict_tuple d ∈ dict_tuple <$> cards) by by apply list_elem_of_fmap_2.
  rewrite Heq in Ht. apply fetch_loop_subseteq in Ht.
  rewrite order_by_desc_perm in Ht.
  apply elem_of_ranking_request in Ht as (m & _ & [Hliked _] & Hd_m).
  apply (f_equal t_master_id) in Hd_m. simpl in Hd_m.
  apply list_elem_of_fmap in Hliked as (l & Hid & [Hc Hl]%list_elem_of_filter).
  destruct l; simpl in *. congruence.
Qed.

(** X7: with the master id as primary key, every provider that the
    newly-registered view returns is in the city of the requester and was
    registered less than a week before [now]. *)
Theorem new_registered_cards db now client_id len_index len_return cards d :
  master_pk db →
  get_master_new_registered db now client_id len_index len_return = Some cards →
  d ∈ cards →
  ∃ c m, c ∈ client db ∧ Client.client_id c = client_id
         ∧ m ∈ master db ∧ Master.master_id m = d_master_id d
         ∧ d_city d = Client.city c ∧ Master.city m = Client.city c
         ∧ now - week < Master.date_of_reg m.
Proof.
  intros Hpk [n Heq]%get_master_new_registered_inv Hd.
  assert (Ht : dict_tuple d ∈ dict_tuple <$> cards) by by apply list_elem_of_fmap_2.
  rewrite Heq in Ht. apply fetch_loop_subseteq in Ht.
  rewrite order_by_desc_perm in Ht.
  apply elem_of_ranking_request in Ht as (m & Hm & [Hreg _] & Hd_m).
  apply list_elem_of_fmap in Hreg as (m2 & Hid & [[Hcity Hrecent] Hm2]%list_elem_of_filter).
  assert (m = m2) as <- by by apply (master_pk_inj db).
  destruct (filter _ (client db)) as [|c cs] eqn:Hf; [done|]. simpl in Hcity.
  assert (Hc : c ∈ filter (λ c, Client.client_id c = client_id) (client db))
    by (rewrite Hf; left).
  apply list_elem_of_filter in Hc as [Hcid Hc].
  pose proof (f_equal t_master_id Hd_m) as Hdi.
  pose proof (f_equal t_city Hd_m) as Hdc. simpl in Hdi, Hdc.
  exists c, m. simplify_eq. repeat split; try done; congruence.
Qed.


(** ** Successive pages *)


(** ** Cities with new providers *)

Lemma elem_of_unique {A} `{EqDecision A} (l : list A) (x : A) : x ∈ unique l ↔ x ∈ l.
Proof.
  induction l as [|y l IH]; simpl; [done|].
  rewrite !elem_of_cons, list_elem_of_filter, IH.
  destruct (decide (x = y)); tauto.
Qed.

Lemma NoDup_unique {A} `{EqDecision A} (l : list A) : NoDup (unique l).
Proof.
  induction l as [|y l IH]; simpl; [constructor|].
  apply NoDup_cons. split; [|by apply NoDup_filter].
  intros [Hne _]%list_elem_of_filter. by apply Hne.
Qed.

(** X10: [get_master_cities_new_registered] lists every city once, and,
    with the master id as primary key, the city of every provider that the
    newly-registered view returns at the same moment is on that list. *)
Theorem new_registered_city_listed db now client_id len_index len_return cards d :
  master_pk db →
  get_master_new_registered db now client_id len_index len_return = Some cards →
  d ∈ cards →
  NoDup (get_master_cities_new_registered db now)
  ∧ d_city d ∈ get_master_cities_new_registered db now.
Proof.
  intros Hpk [n Heq]%get_master_new_registered_inv Hd. split; [apply NoDup_unique|].
  assert (Ht : dict_tuple d ∈ dict_tuple <$> cards) by by apply list_elem_of_fmap_2.
  rewrite Heq in Ht. apply fetch_loop_subseteq in Ht.
  rewrite order_by_desc_perm in Ht.
  apply elem_of_ranking_request in Ht as (m & Hm & [Hreg Hfree] & Hd_m).
  apply list_elem_of_fmap in Hreg as (m2 & Hid & [[Hcity Hrecent] Hm2]%list_elem_of_filter).
  assert (m = m2) as <- by by apply (master_pk_inj db).
  pose proof (f_equal t_city Hd_m) as Hdc. simpl in Hdc.
  unfold get_master_cities_new_registered. apply elem_of_unique.
  apply list_elem_of_fmap. exists m. split; [congruence|].
  apply list_elem_of_filter. split; [|done]. split; [done | lia].
Qed.

(** ** Tier "all" for a choice of proper styles *)

Lemma elem_of_all_master_client_styles cl db client_id city tattoo_type
    list_styles (master_id : Z) :
  [NUMBER_ALL_STYLES] ≠ list_styles →
  master_id ∈ all_master_client cl db client_id city tattoo_type list_styles
  ↔ ∃ m ms, m ∈ master db ∧ ms ∈ master_styles db
            ∧ MasterStyles.master_id ms = Master.master_id m
            ∧ Master.master_id m = master_id
            ∧ filter_type tattoo_type m ∧ city_where cl city m
            ∧ (MasterStyles.style_id ms = NUMBER_ALL_STYLES
               ∨ ∃ cs, cs ∈ client_styles db
                       ∧ ClientStyles.client_id cs = client_id
                       ∧ ClientStyles.style_id cs = MasterStyles.style_id ms).
Proof.
  intros Hne. unfold all_master_client. rewrite decide_False by done.
  rewrite elem_of_app, elem_of_remove_dups, !list_elem_of_fmap. split.
  - intros [([[m ms] cs] & -> & [(? & ? & ?) Hj]%list_elem_of_filter)
           |([m ms] & -> & [(? & ? & ?) Hj]%list_elem_of_filter)]; simpl in *.
    + apply list_elem_of_bind in Hj as ([m' ms'] & Hj & Hjoin).
      apply list_elem_of_bind in Hj as (cs' & Hj & Hcs).
      case_decide as Hst; [|by apply elem_of_nil in Hj].
      apply list_elem_of_singleton in Hj. simplify_eq. simpl in *.
      apply elem_of_join_master_styles in Hjoin as (? & ? & ?).
      exists m', ms'. repeat split; try done. right. by exists cs'.
    + apply elem_of_join_master_styles in Hj as (? & ? & ?).
      exists m, ms. repeat split; try done. by left.
  - intros (m & ms & Hm & Hms & Hid & <- & Hft & Hcity & [Hw|(cs & Hcs & Hc & Hs)]).
    + right. exists (m, ms). split; [done|].
      apply list_elem_of_filter. split; [done|]. by apply elem_of_join_master_styles.
    + left. exists (m, ms, cs). split; [done|].
      apply list_elem_of_filter. split; [done|].
      apply list_elem_of_bind. exists (m, ms). split;
        [|by apply elem_of_join_master_styles].
      apply list_elem_of_bind. exists cs. split; [|done].
      rewrite decide_True by done. by apply list_elem_of_singleton.
Qed.

(** X11: for a requester whose chosen styles are not the wildcard alone,
    and with the master id as primary key, the candidates of tier "all" are
    the providers of the requester's city that are not blocked, pass the
    tattoo-type filter and hold a style row that names either the wildcard
    or a style the requester has chosen. *)
Theorem styles_tier_all db client_id id name city tattoo_type list_styles (master_id : Z) :
  master_pk db →
  get_client_info_and_styles db client_id
  = Some (id, name, city, tattoo_type, list_styles) →
  [NUMBER_ALL_STYLES] ≠ list_styles →
  master_id ∈ t_master_id <$> ranking "all" db client_id
  ↔ ∃ m ms, m ∈ master db ∧ Master.master_id m = master_id
            ∧ Master.city m = city ∧ Master.is_blocked m = false
            ∧ filter_type tattoo_type m
            ∧ ms ∈ master_styles db ∧ MasterStyles.master_id ms = master_id
            ∧ (MasterStyles.style_id ms = NUMBER_ALL_STYLES
               ∨ ∃ cs, cs ∈ client_styles db
                       ∧ ClientStyles.client_id cs = client_id
                       ∧ ClientStyles.style_id cs = MasterStyles.style_id ms).
Proof.
  intros Hpk Hc Hne.
  rewrite (elem_of_ranking _ _ _ _ _ _ _ _ _ _ _ tier_clauses_all Hc). simpl.
  setoid_rewrite (elem_of_all_master_client_styles _ _ _ _ _ _ _ Hne). split.
  - intros (m & Hm & Hid & Hcity & Hfree & m' & ms & Hm' & Hms & Hj & Hid' & Hft & _ & Hst).
    assert (m = m') as <- by (apply (master_pk_inj db); congruence).
    exists m, ms. repeat split; try done. congruence.
  - intros (m & ms & Hm & Hid & Hcity & Hfree & Hft & Hms & Hmsid & Hst).
    exists m. repeat split; try done.
    exists m, ms. repeat split; try done. congruence.
Qed.

(** X12: for a requester that the lookup finds, every provider of the
    requester's city that is not blocked is a candidate of tier "all" or of
    tier "city": the two tiers leave out nobody of the city. *)
Theorem tiers_cover_city db client_id id name city tattoo_type list_styles m :
  get_client_info_and_styles db client_id
  = Some (id, name, city, tattoo_type, list_styles) →
  m ∈ master db → Master.city m = city → Master.is_blocked m = false →
  Master.master_id m ∈ t_master_id <$> ranking "all" db client_id
  ∨ Master.master_id m ∈ t_master_id <$> ranking "city" db client_id.
Proof.
  intros Hc Hm Hcity Hfree.
  rewrite (elem_of_ranking _ _ _ _ _ _ _ _ _ _ _ tier_clauses_all Hc).
  rewrite (elem_of_ranking _ _ _ _ _ _ _ _ _ _ _ tier_clauses_city Hc). simpl.
  destruct (decide (Master.master_id m
                    ∈ all_master_client city_eq db client_id city tattoo_type list_styles)).
  - left. by exists m.
  - right. by exists m.
Qed.

(** ** [validate_style_ids] *)

(** X13: [validate_style_ids] returns no id twice; a list that names the
    wildcard becomes the wildcard alone, and from any other list exactly
    the ids between the wildcard and [MAX_NUMBER_STYLES] are kept. *)
Theorem validate_style_ids_spec (style_ids : list Z) :
  NoDup (validate_style_ids style_ids)
  ∧ ∀ x, x ∈ validate_style_ids style_ids
         ↔ (NUMBER_ALL_STYLES ∈ style_ids ∧ x = NUMBER_ALL_STYLES)
           ∨ ((NUMBER_ALL_STYLES ∉ style_ids) ∧ x ∈ style_ids
              ∧ NUMBER_ALL_STYLES ≤ x ≤ MAX_NUMBER_STYLES).
Proof.
  unfold validate_style_ids.
  destruct (decide (NUMBER_ALL_STYLES ∈ elements (list_to_set style_ids : gset Z)))
    as [Hin|Hin]; rewrite elem_of_elements, elem_of_list_to_set in Hin.
  - split; [apply NoDup_singleton|]. intros x. rewrite list_elem_of_singleton. tauto.
  - split; [apply NoDup_filter, NoDup_elements|]. intros x.
    rewrite list_elem_of_filter, elem_of_elements, elem_of_list_to_set. tauto.
Qed.

(** ** Chosen styles *)

Lemma filter_key_pk {A} (f : A → Z) (l : list A) (k : Z) :
  NoDup (f <$> l) →
  (filter (λ x, f x = k) l = [] ∧ k ∉ f <$> l)
  ∨ (∃ x, filter (λ x, f x = k) l = [x] ∧ x ∈ l ∧ f x = k).
Proof.
  induction l as [|a l IH]; csimpl; intros Hnd.
  - left. split; [done | apply not_elem_of_nil].
  - apply NoDup_cons in Hnd as [Ha Hnd]. rewrite filter_cons.
    destruct (decide (f a = k)) as [Hk|Hk].
    + right. exists a. split; [|split; [by left | done]].
      destruct (IH Hnd) as [[-> _]|(x & _ & Hx & Hfx)]; [done|].
      exfalso. apply Ha. rewrite Hk, <- Hfx. by apply list_elem_of_fmap_2.
    + destruct (IH Hnd) as [[Hf Hno]|(x & Hf & Hx & Hfx)].
      * left. split; [done|]. rewrite not_elem_of_cons. by split; [congruence|].
      * right. exists x. split; [done|]. split; [by right | done].
Qed.

Lemma bind_nil_all {A B} (f : A → list B) (l : list A) :
  (∀ x, x ∈ l → f x = []) → l ≫= f = [].
Proof.
  induction l as [|a l IH]; intros Hf; csimpl; [done|].
  rewrite Hf by left. rewrite IH; [done|]. intros x Hx. apply Hf. by right.
Qed.

Lemma bind_unique_key {A B} (g : A → Z) (f : A → list B) (l : list A) (x0 : A) :
  NoDup (g <$> l) → x0 ∈ l → (∀ x, x ∈ l → g x ≠ g x0 → f x = []) →
  l ≫= f = f x0.
Proof.
  induction l as [|a l IH]; csimpl; intros Hnd Hx0 Hf.
  - by apply elem_of_nil in Hx0.
  - apply NoDup_cons in Hnd as [Ha Hnd].
    apply elem_of_cons in Hx0 as [->|Hx0].
    + rewrite bind_nil_all; [by rewrite app_nil_r|].
      intros x Hx. apply Hf; [by right|]. intros Heq. apply Ha. rewrite <- Heq.
      by apply list_elem_of_fmap_2.
    + rewrite (Hf a); [|by left|].
      * apply IH; [done..|]. intros x Hx. apply Hf. by right.
      * intros Heq. apply Ha. rewrite Heq. by apply list_elem_of_fmap_2.
Qed.

Lemma bind_ext_in {A B} (f g : A → list B) (l : list A) :
  (∀ x, x ∈ l → f x = g x) → l ≫= f = l ≫= g.
Proof.
  induction l as [|a l IH]; intros Hfg; csimpl; [done|].
  rewrite Hfg by left. rewrite IH; [done|]. intros x Hx. apply Hfg. by right.
Qed.

(** With the client id as primary key the lookup of the search returns the
    requester row with its chosen styles in stored order. *)
Lemma join_client_styles_pk db (c0 : Client.t) :
  client_pk db → c0 ∈ client db →
  join_client_styles db (Client.client_id c0)
  = (λ cs, (c0, cs))
      <$> filter (λ cs, ClientStyles.client_id cs = Client.client_id c0)
            (client_styles db).
Proof.
  intros Hpk Hc0. unfold join_client_styles.
  rewrite (bind_unique_key Client.client_id _ _ c0 Hpk Hc0).
  - induction (client_styles db) as [|cs l IH]; csimpl; [done|].
    rewrite filter_cons.
    destruct (decide (ClientStyles.client_id cs = Client.client_id c0)) as [Hcs|Hcs].
    + rewrite decide_True by done. csimpl. by rewrite IH.
    + rewrite decide_False by (by intros [? _]). by rewrite IH.
  - intros c Hc Hne. apply bind_nil_all. intros cs _.
    rewrite decide_False; [done|]. by intros [_ ?].
Qed.

Lemma get_client_info_and_styles_pk db (c0 : Client.t) :
  client_pk db → c0 ∈ client db →
  get_client_info_and_styles db (Client.client_id c0)
  = match filter (λ cs, ClientStyles.client_id cs = Client.client_id c0)
            (client_styles db) with
    | [] => None
    | chosen =>
        Some (Client.client_id c0, Client.name c0, Client.city c0,
              Client.tattoo_type c0, ClientStyles.style_id <$> chosen)
    end.
Proof.
  intros Hpk Hc0. unfold get_client_info_and_styles.
  rewrite (join_client_styles_pk db c0 Hpk Hc0).
  destruct (filter _ (client_styles db)) as [|cs chosen]; [done|].
  change ((λ cs, (c0, cs)) <$> cs :: chosen)
    with ((c0, cs) :: ((λ cs, (c0, cs)) <$> chosen)).
  cbv beta iota. do 2 f_equal.
  rewrite filter_cons, decide_True by done. csimpl. f_equal.
  rewrite filter_all.
  - by rewrite <- list_fmap_compose.
  - apply Forall_forall. by intros r (cs1 & -> & _)%list_elem_of_fmap.
Qed.

(** The loop over the validated ids keeps the ids that [Styles] knows. *)
Lemma styles_to_add_pk db (style_ids : list Z) :
  styles_pk db →
  styles_to_add db style_ids
  = Some (filter (λ s, s ∈ Styles.style_id <$> styles db) style_ids).
Proof.
  intros Hpk. unfold styles_to_add.
  induction style_ids as [|s l IH]; [done|]. csimpl.
  destruct (mapM _ l) as [ks|] eqn:Hks; [|done]. simpl in IH. injection IH as IH.
  rewrite filter_cons.
  destruct (filter_key_pk Styles.style_id (styles db) s Hpk)
    as [[-> Hno]|(x & -> & Hx & Hsx)]; csimpl.
  - by rewrite decide_False, IH by done.
  - rewrite decide_True; [by rewrite IH|]. rewrite <- Hsx. by apply list_elem_of_fmap_2.
Qed.

Lemma styles_to_add_unknown db (style_ids : list Z) :
  (∀ s, s ∈ style_ids → s ∉ Styles.style_id <$> styles db) →
  styles_to_add db style_ids = Some [].
Proof.
  unfold styles_to_add. induction style_ids as [|s l IH]; intros Hno; [done|]. csimpl.
  rewrite (filter_none (λ x, Styles.style_id x = s)).
  - csimpl. destruct (mapM _ l) as [ks|] eqn:Hks.
    + csimpl. specialize (IH (λ x Hx, Hno x (list_elem_of_further _ _ _ Hx))).
      simpl in IH. by injection IH as ->.
    + specialize (IH (λ x Hx, Hno x (list_elem_of_further _ _ _ Hx))). done.
  - apply Forall_forall. intros x Hx Hsx. apply (Hno s); [by left|].
    rewrite <- Hsx. by apply list_elem_of_fmap_2.
Qed.

Lemma create_client_styles_tables db client_id style_ids :
  let db1 := create_client_styles db client_id style_ids in
  client db1 = client db ∧ master db1 = master db ∧ likes db1 = likes db
  ∧ styles db1 = styles db ∧ master_styles db1 = master_styles db
  ∧ master_photos db1 = master_photos db.
Proof.
  unfold create_client_styles.
  destruct (styles_to_add _ _) as [[|s l]|]; try case_decide; done.
Qed.

Lemma create_client_styles_rows db client_id style_ids :
  styles_pk db → client_id ∈ Client.client_id <$> client db →
  client_styles (create_client_styles db client_id style_ids)
  = filter (λ cs, ClientStyles.client_id cs ≠ client_id) (client_styles db)
    ++ (ClientStyles.mk client_id
          <$> filter (λ s, s ∈ Styles.style_id <$> styles db)
                (validate_style_ids style_ids)).
Proof.
  intros Hpk Hc. unfold create_client_styles.
  rewrite (styles_to_add_pk (delete_client_style db client_id)) by done. simpl.
  destruct (filter _ (validate_style_ids style_ids)) as [|s l]; simpl.
  - by rewrite app_nil_r.
  - by rewrite decide_True.
Qed.

Lemma filter_chosen_after db client_id (stored : list Z) :
  filter (λ cs, ClientStyles.client_id cs = client_id)
    (filter (λ cs, ClientStyles.client_id cs ≠ client_id) (client_styles db)
     ++ (ClientStyles.mk client_id <$> stored))
  = ClientStyles.mk client_id <$> stored.
Proof.
  rewrite filter_app. rewrite filter_none.
  - simpl. apply filter_all, Forall_forall.
    by intros cs (s & -> & _)%list_elem_of_fmap.
  - apply Forall_forall. by intros cs [? _]%list_elem_of_filter.
Qed.

(** X14: with the primary keys of [client] and [styles], the search reads
    back what [create_client_styles] has stored for an existing requester:
    the validated ids that the style catalog knows, in place of the former
    choice. *)
Theorem create_client_styles_lookup db (c0 : Client.t) style_ids :
  client_pk db → styles_pk db → c0 ∈ client db →
  let stored :=
    filter (λ s, s ∈ Styles.style_id <$> styles db) (validate_style_ids style_ids) in
  stored ≠ [] →
  get_client_info_and_styles
    (create_client_styles db (Client.client_id c0) style_ids) (Client.client_id c0)
  = Some (Client.client_id c0, Client.name c0, Client.city c0,
          Client.tattoo_type c0, stored).
Proof.
  intros Hcpk Hspk Hc0 stored Hne.
  pose proof (create_client_styles_tables db (Client.client_id c0) style_ids)
    as (Hcl & _).
  rewrite get_client_info_and_styles_pk;
    [|unfold client_pk; by rewrite Hcl | by rewrite Hcl].
  rewrite create_client_styles_rows;
    [|done | by apply list_elem_of_fmap_2].
  rewrite filter_chosen_after. fold stored.
  destruct stored as [|s l]; [done|]. csimpl. do 3 f_equal.
  by rewrite <- list_fmap_compose, list_fmap_id.
Qed.

(** X15: [create_client_styles] for one requester changes nothing in what
    the search reads for another. *)
Theorem create_client_styles_frame db client_id style_ids (other : Z) :
  other ≠ client_id →
  get_client_info_and_styles (create_client_styles db client_id style_ids) other
  = get_client_info_and_styles db other.
Proof.
  intros Hne.
  assert (Hinner : ∀ (c : Client.t) (l : list ClientStyles.t),
            (l ≫= λ cs, if decide (ClientStyles.client_id cs = Client.client_id c
                                   ∧ Client.client_id c = other)
                        then [(c, cs)] else [])
            = (filter (λ cs, ClientStyles.client_id cs = other) l
               ≫= λ cs, if decide (ClientStyles.client_id cs = Client.client_id c
                                   ∧ Client.client_id c = other)
                        then [(c, cs)] else [])).
  { intros c l. induction l as [|cs l IH]; csimpl; [done|].
    rewrite filter_cons. destruct (decide (ClientStyles.client_id cs = other)).
    - csimpl. by rewrite IH.
    - rewrite decide_False by (intros [? ?]; congruence). by rewrite IH. }
  assert (Hjoin : join_client_styles (create_client_styles db client_id style_ids) other
                  = join_client_styles db other).
  { unfold join_client_styles.
    pose proof (create_client_styles_tables db client_id style_ids) as (-> & _).
    apply bind_ext_in. intros c _. rewrite Hinner, (Hinner c (client_styles db)).
    f_equal. unfold create_client_styles.
    assert (Hold : filter (λ cs, ClientStyles.client_id cs = other)
                     (filter (λ cs, ClientStyles.client_id cs ≠ client_id)
                        (client_styles db))
                   = filter (λ cs, ClientStyles.client_id cs = other) (client_styles db)).
    { rewrite list_filter_filter. apply list_filter_iff. intros cs.
      split; [by intros [? _] | intros ?; split; [done | congruence]]. }
    destruct (styles_to_add _ _) as [[|s l]|]; try case_decide; simpl; try done.
    rewrite filter_app, Hold.
    match goal with
    | |- _ ++ filter ?P ?new = _ => assert (Hnew : filter P new = [])
    end.
    { apply filter_none, Forall_forall. intros cs Hcs Hcid.
      change (cs ∈ ClientStyles.mk client_id <$> s :: l) in Hcs.
      apply list_elem_of_fmap in Hcs as (s' & -> & _). simpl in Hcid. congruence. }
    by rewrite Hnew, app_nil_r. }
  unfold get_client_info_and_styles. by rewrite Hjoin.
Qed.

(** X16: when none of the validated ids is in the style catalog,
    [create_client_styles] leaves the requester without a chosen style, and
    every tier then returns the empty list for that requester. *)
Theorem create_client_styles_nothing_valid db client_id style_ids
    len_index len_return filtered :
  (∀ s, s ∈ validate_style_ids style_ids → s ∉ Styles.style_id <$> styles db) →
  get_master_ranking_by_like_with_except
    (create_client_styles db client_id style_ids) client_id len_index len_return filtered
  = Some [].
Proof.
  intros Hno.
  assert (Hc : get_client_info_and_styles
                 (create_client_styles db client_id style_ids) client_id = None).
  { apply get_client_info_and_styles_None. intros c cs _ Hcs _.
    unfold create_client_styles in Hcs.
    rewrite (styles_to_add_unknown (delete_client_style db client_id)) in Hcs by done.
    simpl in Hcs. by apply list_elem_of_filter in Hcs as [? _]. }
  destruct (tier_clauses filtered) as [[cl mb]|] eqn:Ht.
  - rewrite (with_except_tier _ _ _ _ _ _ _ Ht). by apply ranking_by_like_missing.
  - by apply with_except_unknown.
Qed.

(** X17: after an existing requester has stored a choice that names the
    wildcard (the catalog knowing it), the candidates of tier "all" for that
    requester are all the providers of the requester's city that are not
    blocked, pass the tattoo-type filter and hold at least one style row. *)
Theorem create_client_styles_wildcard db (c0 : Client.t) style_ids (master_id : Z) :
  client_pk db → styles_pk db → c0 ∈ client db →
  NUMBER_ALL_STYLES ∈ style_ids →
  NUMBER_ALL_STYLES ∈ Styles.style_id <$> styles db →
  let db1 := create_client_styles db (Client.client_id c0) style_ids in
  master_id ∈ t_master_id <$> ranking "all" db1 (Client.client_id c0)
  ↔ ∃ m, m ∈ master db ∧ Master.master_id m = master_id
         ∧ Master.city m = Client.city c0 ∧ Master.is_blocked m = false
         ∧ filter_type (Client.tattoo_type c0) m
         ∧ ∃ ms, ms ∈ master_styles db ∧ MasterStyles.master_id ms = master_id.
Proof.
  intros Hcpk Hspk Hc0 Hin Hcat db1.
  pose proof (create_client_styles_tables db (Client.client_id c0) style_ids)
    as (Hcl & Hma & _ & _ & Hms & _). fold db1 in Hcl, Hma, Hms.
  assert (Hc : get_client_info_and_styles db1 (Client.client_id c0)
               = Some (Client.client_id c0, Client.name c0, Client.city c0,
                       Client.tattoo_type c0, [NUMBER_ALL_STYLES])).
  { subst db1. rewrite get_client_info_and_styles_pk;
      [|unfold client_pk; by rewrite Hcl | by rewrite Hcl].
    rewrite create_client_styles_rows; [|done | by apply list_elem_of_fmap_2].
    rewrite filter_chosen_after, validate_style_ids_wildcard by done.
    rewrite filter_cons, decide_True by done. done. }
  rewrite (elem_of_ranking _ _ _ _ _ _ _ _ _ _ _ tier_clauses_all Hc). simpl.
  setoid_rewrite elem_of_all_master_client_wildcard. rewrite Hma, Hms. split.
  - intros (m & ? & ? & ? & ? & m' & ms & ? & ? & ? & ? & ? & ? & ?).
    exists m'. repeat split; try done. exists ms. split; [done|]. congruence.
  - intros (m & ? & ? & ? & ? & ? & ms & ? & ?).
    exists m. repeat split; try done. exists m, ms. repeat split; try done. congruence.
Qed.

Lemma create_master_styles_tables db master_id style_ids :
  let db1 := create_master_styles db master_id style_ids in
  client db1 = client db ∧ master db1 = master db ∧ likes db1 = likes db
  ∧ styles db1 = styles db ∧ client_styles db1 = client_styles db
  ∧ master_photos db1 = master_photos db.
Proof.
  unfold create_master_styles.
  destruct (styles_to_add _ _) as [[|s l]|]; try case_decide; done.
Qed.

Lemma create_master_styles_rows db master_id style_ids :
  styles_pk db → master_id ∈ Master.master_id <$> master db →
  master_styles (create_master_styles db master_id style_ids)
  = filter (λ ms, MasterStyles.master_id ms ≠ master_id) (master_styles db)
    ++ (MasterStyles.mk master_id
          <$> filter (λ s, s ∈ Styles.style_id <$> styles db)
                (validate_style_ids style_ids)).
Proof.
  intros Hpk Hc. unfold create_master_styles.
  rewrite (styles_to_add_pk (delete_master_styles db master_id)) by done. simpl.
  destruct (filter _ (validate_style_ids style_ids)) as [|s l]; simpl.
  - by rewrite app_nil_r.
  - by rewrite decide_True.
Qed.

(** X18: after a provider that is not blocked has stored a choice that
    names the wildcard (the catalog knowing it), the provider is a
    candidate of tier "all" for every requester of its city whose
    tattoo-type filter it passes, whatever styles that requester chose. *)
Theorem create_master_styles_wildcard db (m0 : Master.t) style_ids
    client_id id name tattoo_type list_styles :
  styles_pk db → m0 ∈ master db → Master.is_blocked m0 = false →
  NUMBER_ALL_STYLES ∈ style_ids →
  NUMBER_ALL_STYLES ∈ Styles.style_id <$> styles db →
  let db1 := create_master_styles db (Master.master_id m0) style_ids in
  get_client_info_and_styles db1 client_id
  = Some (id, name, Master.city m0, tattoo_type, list_styles) →
  filter_type tattoo_type m0 →
  Master.master_id m0 ∈ t_master_id <$> ranking "all" db1 client_id.
Proof.
  intros Hspk Hm0 Hfree Hin Hcat db1 Hc Hft.
  pose proof (create_master_styles_tables db (Master.master_id m0) style_ids)
    as (_ & Hma & _). fold db1 in Hma.
  assert (Hrow : MasterStyles.mk (Master.master_id m0) NUMBER_ALL_STYLES
                 ∈ master_styles db1).
  { subst db1. rewrite create_master_styles_rows;
      [|done | by apply list_elem_of_fmap_2].
    rewrite validate_style_ids_wildcard by done.
    rewrite filter_cons, decide_True by done.
    apply elem_of_app. right. by left. }
  apply (elem_of_ranking _ _ _ _ _ _ _ _ _ _ _ tier_clauses_all Hc).
  exists m0. rewrite Hma. repeat split; try done. simpl.
  destruct (decide ([NUMBER_ALL_STYLES] = list_styles)) as [<-|Hne].
  - apply elem_of_all_master_client_wildcard.
    exists m0, (MasterStyles.mk (Master.master_id m0) NUMBER_ALL_STYLES).
    rewrite Hma. by repeat split.
  - apply elem_of_all_master_client_styles; [done|].
    exists m0, (MasterStyles.mk (Master.master_id m0) NUMBER_ALL_STYLES).
    rewrite Hma. repeat split; try done. by left.
Qed.

(** ** Photos *)











(** ** Deleting a master or a client *)

Lemma filter_filter_ne {A} (f : A → Z) (l : list A) (k other : Z) :
  other ≠ k →
  filter (λ x, f x = other) (filter (λ x, f x ≠ k) l) = filter (λ x, f x = other) l.
Proof.
  intros Hne. rewrite list_filter_filter. apply list_filter_iff. intros x.
  split; [by intros [? _] | intros ?; split; [done | congruence]].
Qed.

Lemma filter_filter_eq_ne {A} (f : A → Z) (l : list A) (k : Z) :
  filter (λ x, f x = k) (filter (λ x, f x ≠ k) l) = [].
Proof.
  apply filter_none, Forall_forall. by intros x [? _]%list_elem_of_filter.
Qed.

Lemma check_master_in_db_true db master_id :
  check_master_in_db db master_id = true ↔ master_id ∈ Master.master_id <$> master db.
Proof.
  unfold check_master_in_db. rewrite bool_decide_eq_true, Exists_exists, list_elem_of_fmap.
  split; intros (m & ? & ?); exists m; by split.
Qed.

Lemma check_client_in_db_true db client_id :
  check_client_in_db db client_id = true ↔ client_id ∈ Client.client_id <$> client db.
Proof.
  unfold check_client_in_db. rewrite bool_decide_eq_true, Exists_exists, list_elem_of_fmap.
  split; intros (m & ? & ?); exists m; by split.
Qed.

(** X20: with the master id as primary key, [delete_master] leaves no
    trace of the master: it is no longer in [master], it appears in no
    ranking, and, if it was there, its likes, photos and styles are gone;
    the like count of every other master is what it was. *)
Theorem delete_master_gone db master_id :
  master_pk db →
  let db1 := delete_master db master_id in
  check_master_in_db db1 master_id = false
  ∧ (∀ other, other ≠ master_id →
       get_master_likes_count db1 other = get_master_likes_count db other)
  ∧ (check_master_in_db db master_id = true →
     get_master_likes_count db1 master_id = 0
     ∧ get_master_photos db1 master_id = []
     ∧ get_master_selected_styles db1 master_id = ∅)
  ∧ (∀ op client_id len_index len_return cards,
       run op db1 client_id len_index len_return = Some cards →
       master_id ∉ d_master_id <$> cards).
Proof.
  intros Hpk db1.
  assert (Hgone : master_id ∉ Master.master_id <$> master db1).
  { subst db1. unfold delete_master.
    destruct (filter_key_pk Master.master_id (master db) master_id Hpk)
      as [[-> Hno]|(x & -> & _)]; [done|]. simpl.
    by intros (m & -> & [? _]%list_elem_of_filter)%list_elem_of_fmap. }
  split; [|split; [|split]].
  - apply not_true_is_false. by rewrite check_master_in_db_true.
  - intros other Hne. subst db1. unfold delete_master, get_master_likes_count.
    destruct (filter _ (master db)) as [|x [|y l]]; try done. simpl.
    by rewrite (filter_filter_ne Likes.master_id).
  - intros Hex%check_master_in_db_true. subst db1. unfold delete_master.
    destruct (filter_key_pk Master.master_id (master db) master_id Hpk)
      as [[_ Hno]|(x & -> & _)]; [done|].
    unfold get_master_likes_count, get_master_photos, get_master_selected_styles. simpl.
    rewrite (filter_filter_eq_ne Likes.master_id).
    rewrite (filter_filter_eq_ne MasterPhotos.master_id).
    split; [done|]. split; [done|].
    rewrite bind_nil_all; [done|].
    intros ms [Hms _]%list_elem_of_filter. apply bind_nil_all. intros st _.
    rewrite decide_False; [done|]. by intros [_ ?].
  - intros op client_id len_index len_return cards Hrun (d & Hid & Hd)%list_elem_of_fmap.
    destruct (run_page_elem _ _ _ _ _ _ _ Hrun Hd) as (m & Hm & _ & Heq).
    apply Hgone. apply list_elem_of_fmap. exists m. split; [|done].
    apply (f_equal t_master_id) in Heq. simpl in Heq. congruence.
Qed.

Lemma length_filter_split (l : list Likes.t) (client_id master_id : Z) :
  length (filter (λ l, Likes.master_id l = master_id) l)
  = (length (filter (λ l, Likes.master_id l = master_id)
               (filter (λ l, Likes.client_id l ≠ client_id) l))
     + length (filter (λ l, Likes.client_id l = client_id
                            ∧ Likes.master_id l = master_id) l))%nat.
Proof.
  induction l as [|x l IH]; [done|]. rewrite !filter_cons.
  destruct (decide (Likes.master_id x = master_id)),
    (decide (Likes.client_id x = client_id)); simpl.
  - rewrite decide_False by (by intros Hn). rewrite decide_True by done. simpl. lia.
  - rewrite decide_True by done. rewrite filter_cons, decide_True by done.
    rewrite decide_False by (by intros [? _]). simpl. lia.
  - rewrite decide_False by (by intros Hn). rewrite decide_False by (by intros [_ ?]). done.
  - rewrite decide_True by done. rewrite filter_cons, decide_False by done.
    rewrite decide_False by (by intros [_ ?]). done.
Qed.

(** X21: with the client id as primary key, [delete_client] of an existing
    client removes the client and its likes: the client is no longer in
    [client], every tier returns the empty list for it, and the like count
    of a master drops by the likes that client had given it. *)
Theorem delete_client_gone db client_id :
  client_pk db → check_client_in_db db client_id = true →
  let db1 := delete_client db client_id in
  check_client_in_db db1 client_id = false
  ∧ (∀ len_index len_return filtered,
       get_master_ranking_by_like_with_except db1 client_id len_index len_return filtered
       = Some [])
  ∧ (∀ master_id,
       get_master_likes_count db1 master_id
       = get_master_likes_count db master_id
         - Z.of_nat (length (filter (λ l, Likes.client_id l = client_id
                                         ∧ Likes.master_id l = master_id)
                               (likes db)))).
Proof.
  intros Hpk Hex%check_client_in_db_true db1. subst db1. unfold delete_client.
  destruct (filter_key_pk Client.client_id (client db) client_id Hpk)
    as [[_ Hno]|(x & -> & _)]; [done|].
  assert (Hgone : client_id
                  ∉ Client.client_id
                      <$> filter (λ c, Client.client_id c ≠ client_id) (client db))
    by (by intros (c & -> & [? _]%list_elem_of_filter)%list_elem_of_fmap).
  split; [|split].
  - apply not_true_is_false. by rewrite check_client_in_db_true.
  - intros len_index len_return filtered.
    match goal with
    | |- get_master_ranking_by_like_with_except ?d _ _ _ _ = _ =>
        assert (Hc : get_client_info_and_styles d client_id = None)
    end.
    { apply get_client_info_and_styles_None. simpl. intros c cs Hc _ Hid.
      exfalso. apply Hgone. apply list_elem_of_fmap. by exists c. }
    destruct (tier_clauses filtered) as [[cl mb]|] eqn:Ht.
    + rewrite (with_except_tier _ _ _ _ _ _ _ Ht). by apply ranking_by_like_missing.
    + by apply with_except_unknown.
  - intros master_id. unfold get_master_likes_count. simpl.
    rewrite (length_filter_split (likes db) client_id master_id). lia.
Qed.

(** ** The constraints of the schema as invariants *)

Lemma Forall_filter_keep {A} (P Q : A → Prop) `{!∀ x, Decision (Q x)} (l : list A) :
  Forall P l → Forall P (filter Q l).
Proof.
  rewrite !Forall_forall. intros Hall x [_ Hx]%list_elem_of_filter. by apply Hall.
Qed.

Lemma NoDup_fmap_filter {A B} (f : A → B) (P : A → Prop) `{!∀ x, Decision (P x)}
    (l : list A) :
  NoDup (f <$> l) → NoDup (f <$> filter P l).
Proof.
  induction l as [|a l IH]; csimpl; [done|]. intros [Ha Hnd]%NoDup_cons.
  rewrite filter_cons. destruct (decide (P a)); [|by apply IH]. csimpl.
  apply NoDup_cons. split; [|by apply IH].
  intros (x & Hfx & [_ Hx]%list_elem_of_filter)%list_elem_of_fmap.
  apply Ha. rewrite Hfx. by apply list_elem_of_fmap_2.
Qed.

Lemma ids_filter_ne {A} (f : A → Z) (l : list A) (k x : Z) :
  x ∈ f <$> l → x ≠ k → x ∈ f <$> filter (λ a, f a ≠ k) l.
Proof.
  intros (a & -> & Ha)%list_elem_of_fmap Hne. apply list_elem_of_fmap.
  exists a. split; [done|]. by apply list_elem_of_filter.
Qed.

Lemma validate_style_ids_NoDup (style_ids : list Z) :
  NoDup (validate_style_ids style_ids).
Proof.
  unfold validate_style_ids. case_decide; [apply NoDup_singleton|].
  apply NoDup_filter, NoDup_elements.
Qed.

Lemma create_client_styles_unknown db client_id style_ids :
  client_id ∉ Client.client_id <$> client db →
  create_client_styles db client_id style_ids = delete_client_style db client_id.
Proof.
  intros Hno. unfold create_client_styles.
  destruct (styles_to_add _ _) as [[|s l]|]; try done. by rewrite decide_False.
Qed.

Lemma create_master_styles_unknown db master_id style_ids :
  master_id ∉ Master.master_id <$> master db →
  create_master_styles db master_id style_ids = delete_master_styles db master_id.
Proof.
  intros Hno. unfold create_master_styles.
  destruct (styles_to_add _ _) as [[|s l]|]; try done. by rewrite decide_False.
Qed.

Lemma consistent_delete_client_style db client_id :
  consistent db → consistent (delete_client_style db client_id).
Proof.
  intros []. constructor; try done; simpl.
  - by apply NoDup_filter.
  - by apply Forall_filter_keep.
Qed.

Lemma consistent_delete_master_styles db master_id :
  consistent db → consistent (delete_master_styles db master_id).
Proof.
  intros []. constructor; try done; simpl.
  - by apply NoDup_filter.
  - by apply Forall_filter_keep.
Qed.

Lemma consistent_delete_master_photos db master_id :
  consistent db → consistent (delete_master_photos db master_id).
Proof.
  intros []. constructor; try done; simpl. by apply Forall_filter_keep.
Qed.

Lemma consistent_create_client_styles db client_id style_ids :
  consistent db → consistent (create_client_styles db client_id style_ids).
Proof.
  intros Hc.
  destruct (decide (client_id ∈ Client.client_id <$> client db)) as [Hin|Hno];
    [|rewrite create_client_styles_unknown by done;
      by apply consistent_delete_client_style].
  pose proof (create_client_styles_tables db client_id style_ids)
    as (Hcl & Hma & Hli & Hst & Hms & Hph).
  pose proof (create_client_styles_rows db client_id style_ids (c_styles_pk _ Hc) Hin)
    as Hrows.
  destruct Hc. constructor; unfold client_pk, master_pk, styles_pk,
    unique_client_master_likes in *;
    rewrite ?Hcl, ?Hma, ?Hli, ?Hst, ?Hms, ?Hph, ?Hrows; try done.
  - apply NoDup_app. split; [by apply NoDup_filter|]. split.
    + intros cs [Hne _]%list_elem_of_filter (s & -> & _)%list_elem_of_fmap. done.
    + apply NoDup_fmap_2; [by intros ?? [= ?]|].
      apply NoDup_filter, validate_style_ids_NoDup.
  - apply Forall_app. split; [by apply Forall_filter_keep|].
    apply Forall_forall.
    intros cs (s & -> & [Hs _]%list_elem_of_filter)%list_elem_of_fmap. done.
Qed.

Lemma consistent_create_master_styles db master_id style_ids :
  consistent db → consistent (create_master_styles db master_id style_ids).
Proof.
  intros Hc.
  destruct (decide (master_id ∈ Master.master_id <$> master db)) as [Hin|Hno];
    [|rewrite create_master_styles_unknown by done;
      by apply consistent_delete_master_styles].
  pose proof (create_master_styles_tables db master_id style_ids)
    as (Hcl & Hma & Hli & Hst & Hcs & Hph).
  pose proof (create_master_styles_rows db master_id style_ids (c_styles_pk _ Hc) Hin)
    as Hrows.
  destruct Hc. constructor; unfold client_pk, master_pk, styles_pk,
    unique_client_master_likes in *;
    rewrite ?Hcl, ?Hma, ?Hli, ?Hst, ?Hcs, ?Hph, ?Hrows; try done.
  - apply NoDup_app. split; [by apply NoDup_filter|]. split.
    + intros ms [Hne _]%list_elem_of_filter (s & -> & _)%list_elem_of_fmap. done.
    + apply NoDup_fmap_2; [by intros ?? [= ?]|].
      apply NoDup_filter, validate_style_ids_NoDup.
  - apply Forall_app. split; [by apply Forall_filter_keep|].
    apply Forall_forall.
    intros ms (s & -> & [Hs _]%list_elem_of_filter)%list_elem_of_fmap. done.
Qed.

Lemma consistent_create_master_photos db master_id photo_paths :
  consistent db → consistent (create_master_photos db master_id photo_paths).
Proof.
  intros Hc. pose proof (consistent_delete_master_photos db master_id Hc) as Hc1.
  unfold create_master_photos. destruct photo_paths as [|p l]; [done|].
  case_decide as Hok; [|done]. destruct Hok as [Hin _].
  destruct Hc1. constructor; try done. simpl in *.
  apply Forall_app. split; [done|]. apply Forall_forall.
  intros q Hq. change (q ∈ MasterPhotos.mk master_id <$> p :: l) in Hq.
  by apply list_elem_of_fmap in Hq as (x & -> & _).
Qed.

Lemma consistent_delete_master db master_id :
  consistent db → consistent (delete_master db master_id).
Proof.
  intros Hc. unfold delete_master.
  destruct (filter _ (master db)) as [|x [|y l]]; try done.
  destruct Hc. constructor; try done; simpl;
    unfold client_pk, master_pk, styles_pk, unique_client_master_likes in *; simpl.
  - by apply NoDup_fmap_filter.
  - by apply NoDup_filter.
  - by apply NoDup_filter.
  - apply Forall_forall. intros l [Hne Hl]%list_elem_of_filter.
    rewrite Forall_forall in c_likes_fk0. destruct (c_likes_fk0 l Hl) as [? ?].
    split; [done|]. by apply ids_filter_ne.
  - apply Forall_forall. intros ms [Hne Hms]%list_elem_of_filter.
    rewrite Forall_forall in c_master_styles_fk0.
    destruct (c_master_styles_fk0 ms Hms) as [? ?].
    split; [|done]. by apply ids_filter_ne.
  - apply Forall_forall. intros p [Hne Hp]%list_elem_of_filter.
    rewrite Forall_forall in c_master_photos_fk0.
    apply ids_filter_ne; [|done]. by apply c_master_photos_fk0.
Qed.

Lemma consistent_delete_client db client_id :
  consistent db → consistent (delete_client db client_id).
Proof.
  intros Hc. unfold delete_client.
  destruct (filter _ (client db)) as [|x [|y l]]; try done.
  destruct Hc. constructor; try done; simpl;
    unfold client_pk, master_pk, styles_pk, unique_client_master_likes in *; simpl.
  - by apply NoDup_fmap_filter.
  - by apply NoDup_filter.
  - by apply NoDup_filter.
  - apply Forall_forall. intros l [Hne Hl]%list_elem_of_filter.
    rewrite Forall_forall in c_likes_fk0. destruct (c_likes_fk0 l Hl) as [? ?].
    split; [|done]. by apply ids_filter_ne.
  - apply Forall_forall. intros cs [Hne Hcs]%list_elem_of_filter.
    rewrite Forall_forall in c_client_styles_fk0.
    destruct (c_client_styles_fk0 cs Hcs) as [? ?].
    split; [|done]. by apply ids_filter_ne.
Qed.

Lemma update_master_is_blocked_ids db master_id new_value :
  Master.master_id <$> master (update_master_is_blocked db master_id new_value).2
  = Master.master_id <$> master db.
Proof.
  simpl. rewrite <- list_fmap_compose. apply list_fmap_ext.
  intros _ m _. simpl. by case_decide.
Qed.

(** ** The style catalog *)

Lemma dict_lookup_elem {V} (pairs : list (Z * V)) (k : Z) (v : V) :
  dict pairs !! k = Some v → (k, v) ∈ pairs.
Proof.
  unfold dict.
  assert (H : ∀ m : gmap Z V,
             foldl (λ d kv, <[kv.1 := kv.2]> d) m pairs !! k = Some v
             → (k, v) ∈ pairs ∨ m !! k = Some v).
  { induction pairs as [|[k' v'] pairs IH]; intros m Hm; simpl in *; [by right|].
    destruct (IH _ Hm) as [Hin|Hins]; [left; by right|].
    destruct (decide (k = k')) as [->|Hne].
    - rewrite lookup_insert_eq in Hins. injection Hins as ->. left; left.
    - rewrite lookup_insert_ne in Hins by done. by right. }
  intros Hk. destruct (H _ Hk) as [Hin|Hempty]; [done|].
  by rewrite lookup_empty in Hempty.
Qed.


(** ** Reading back the chosen styles *)

Lemma dict_lookup_functional {V} (pairs : list (Z * V)) (k : Z) (v : V) :
  (∀ v', (k, v') ∈ pairs → v' = v) → (k, v) ∈ pairs → dict pairs !! k = Some v.
Proof.
  intros Hfun Hin. unfold dict.
  assert (H : ∀ m : gmap Z V,
             (k, v) ∈ pairs ∨ m !! k = Some v
             → foldl (λ d kv, <[kv.1 := kv.2]> d) m pairs !! k = Some v).
  { clear Hin. induction pairs as [|[k' v'] pairs IH]; intros m Hm; simpl.
    - destruct Hm as [Hm%elem_of_nil|Hm]; done.
    - apply IH; [intros v'' Hv''; apply Hfun; by right|].
      destruct Hm as [[[= -> ->]|Hm]%elem_of_cons|Hm].
      + right. apply lookup_insert_eq.
      + by left.
      + right. destruct (decide (k = k')) as [->|Hne].
        * rewrite lookup_insert_eq. f_equal. apply Hfun. by left.
        * by rewrite lookup_insert_ne. }
  apply H. by left.
Qed.

Lemma selected_styles_lookup {R} (owner style : R → Z) (rows : list R)
    (catalog : list Styles.t) (id s : Z) (name : string) :
  NoDup (Styles.style_id <$> catalog) →
  dict (r ← rows; st ← catalog;
        if decide (Styles.style_id st = style r ∧ owner r = id)
        then [(style r, Styles.style_name st)] else []) !! s = Some name
  ↔ (∃ r, r ∈ rows ∧ owner r = id ∧ style r = s) ∧ Styles.mk s name ∈ catalog.
Proof.
  intros Hpk.
  set (pairs := r ← rows; st ← catalog;
        if decide (Styles.style_id st = style r ∧ owner r = id)
        then [(style r, Styles.style_name st)] else []).
  assert (Hin : ∀ v, (s, v) ∈ pairs
                     ↔ (∃ r, r ∈ rows ∧ owner r = id ∧ style r = s)
                       ∧ Styles.mk s v ∈ catalog).
  { intros v. unfold pairs. rewrite list_elem_of_bind. split.
    - intros (r & (st & Hp & Hst)%list_elem_of_bind & Hr).
      case_decide as Hok; [|by apply elem_of_nil in Hp].
      apply list_elem_of_singleton in Hp. injection Hp as -> ->.
      destruct Hok as [Hid Ho]. split; [by exists r|].
      destruct st; simpl in *. by subst.
    - intros [(r & Hr & Ho & Hs) Hst]. exists r. split; [|done].
      apply list_elem_of_bind. exists (Styles.mk s v). split; [|done].
      rewrite decide_True by done. apply list_elem_of_singleton. by rewrite Hs. }
  split.
  - intros Hlook%dict_lookup_elem. by apply Hin.
  - intros Hs. apply dict_lookup_functional; [|by apply Hin].
    intros v' [_ Hv']%Hin. destruct Hs as [_ Hv].
    by pose proof (f_equal Styles.style_name
                     (NoDup_fmap_elem_inj Styles.style_id catalog
                        (Styles.mk s v') (Styles.mk s name) Hpk Hv' Hv eq_refl)).
Qed.

(** X24: with the style id as primary key, after [create_client_styles]
    for an existing client, [get_client_selected_styles] maps a style id to
    a name exactly when the id is among the validated ids and [styles]
    holds it under that name. *)
Theorem create_client_styles_selected db client_id style_ids (s : Z) (name : string) :
  styles_pk db → client_id ∈ Client.client_id <$> client db →
  get_client_selected_styles (create_client_styles db client_id style_ids) client_id
    !! s = Some name
  ↔ s ∈ validate_style_ids style_ids ∧ Styles.mk s name ∈ styles db.
Proof.
  intros Hpk Hc. unfold get_client_selected_styles.
  destruct (create_client_styles_tables db client_id style_ids)
    as (_ & _ & _ & -> & _ & _).
  rewrite (selected_styles_lookup ClientStyles.client_id ClientStyles.style_id) by done.
  rewrite create_client_styles_rows by done. split.
  - intros [(cs & Hcs & Ho & Hs) Hst]. split; [|done].
    apply elem_of_app in Hcs as [[Hne _]%list_elem_of_filter|Hcs]; [done|].
    apply list_elem_of_fmap in Hcs as (s' & -> & [_ Hs']%list_elem_of_filter).
    simpl in Hs. by subst.
  - intros [Hs Hst]. split; [|done]. exists (ClientStyles.mk client_id s).
    split; [|done]. apply elem_of_app. right. apply list_elem_of_fmap_2.
    apply list_elem_of_filter. split; [|done].
    apply list_elem_of_fmap. by exists (Styles.mk s name).
Qed.

(** X25: with the style id as primary key, after [create_master_styles]
    for an existing master, [get_master_selected_styles] maps a style id to
    a name exactly when the id is among the validated ids and [styles]
    holds it under that name; after [delete_master_styles] it maps no id. *)
Theorem create_master_styles_selected db master_id style_ids (s : Z) (name : string) :
  styles_pk db → master_id ∈ Master.master_id <$> master db →
  (get_master_selected_styles (create_master_styles db master_id style_ids) master_id
     !! s = Some name
   ↔ s ∈ validate_style_ids style_ids ∧ Styles.mk s name ∈ styles db)
  ∧ get_master_selected_styles (delete_master_styles db master_id) master_id !! s = None.
Proof.
  intros Hpk Hm. unfold get_master_selected_styles. split.
  - destruct (create_master_styles_tables db master_id style_ids)
      as (_ & _ & _ & -> & _ & _).
    rewrite (selected_styles_lookup MasterStyles.master_id MasterStyles.style_id) by done.
    rewrite create_master_styles_rows by done. split.
    + intros [(ms & Hms & Ho & Hs) Hst]. split; [|done].
      apply elem_of_app in Hms as [[Hne _]%list_elem_of_filter|Hms]; [done|].
      apply list_elem_of_fmap in Hms as (s' & -> & [_ Hs']%list_elem_of_filter).
      simpl in Hs. by subst.
    + intros [Hs Hst]. split; [|done]. exists (MasterStyles.mk master_id s).
      split; [|done]. apply elem_of_app. right. apply list_elem_of_fmap_2.
      apply list_elem_of_filter. split; [|done].
      apply list_elem_of_fmap. by exists (Styles.mk s name).
  - destruct (_ !! s) as [v|] eqn:Hlook; [|done].
    apply (selected_styles_lookup MasterStyles.master_id MasterStyles.style_id) in Hlook
      as [(ms & [Hne _]%list_elem_of_filter & Ho & _) _]; done.
Qed.

Lemma consistent_create_styles db styles_dict :
  consistent db → consistent (create_styles db styles_dict).
Proof.
  intros Hc. unfold create_styles. case_decide as Hok; [|done].
  destruct Hok as [Hnd Hnew]. destruct Hc.
  assert (Hsub : ∀ x, x ∈ Styles.style_id <$> styles db
                      → x ∈ Styles.style_id <$> styles (set_styles db
                          (styles db ++ ((λ item, Styles.mk item.1 item.2) <$> styles_dict)))).
  { intros x Hx. simpl. rewrite fmap_app. apply elem_of_app. by left. }
  constructor; try done.
  - unfold styles_pk. simpl. rewrite fmap_app, <- list_fmap_compose.
    apply NoDup_app. split; [done|]. split; [|done].
    intros x Hx [item [-> Hitem]]%list_elem_of_fmap.
    rewrite Forall_forall in Hnew. by destruct (Hnew item Hitem) as [Hfresh _].
  - eapply Forall_impl; [exact c_client_styles_fk0|]. intros cs [? ?]. split; [done|].
    by apply Hsub.
  - eapply Forall_impl; [exact c_master_styles_fk0|]. intros ms [? ?]. split; [done|].
    by apply Hsub.
Qed.

(** X22: every modelled function that writes to the store keeps the
    constraints that the schema declares: the primary keys of [client],
    [master] and [styles], the unique pairs of [likes], [client_styles] and
    [master_styles], and all foreign keys. *)
Theorem consistent_preserved (mu : mutation) db :
  consistent db → consistent (perform mu db).
Proof.
  intros Hc. destruct mu; simpl.
  - unfold create_like. case_decide as Hok; [|done]. simpl.
    destruct Hok as (Hcl & Hma & Hfresh). destruct Hc. constructor; try done; simpl.
    + apply NoDup_app. split; [done|]. split; [|apply NoDup_singleton].
      by intros l Hl ->%list_elem_of_singleton.
    + apply Forall_app. split; [done|]. by repeat constructor.
  - destruct Hc. constructor; try done; simpl.
    + by apply NoDup_filter.
    + by apply Forall_filter_keep.
  - by apply consistent_create_client_styles.
  - by apply consistent_create_master_styles.
  - by apply consistent_delete_client_style.
  - by apply consistent_delete_master_styles.
  - by apply consistent_create_master_photos.
  - by apply consistent_delete_master_photos.
  - pose proof (update_master_is_blocked_ids db master_id new_value) as Hids.
    simpl in Hids. destruct Hc. constructor; try done; simpl;
      unfold master_pk in *; simpl; by rewrite ?Hids.
  - by apply consistent_delete_master.
  - by apply consistent_delete_client.
  - by apply consistent_create_styles.
Qed.

End Queries.

(** ** Engines agree where like counts differ *)

Lemma order_by_desc_unique (e1 e2 : SqlEngine) (l : list master_tuple) :
  NoDup (t_count_likes <$> l) → order_by_desc e1 l = order_by_desc e2 l.
Proof.
  intros Hnd. apply (StronglySorted_unique_strong desc_count_likes).
  - intros x1 x2 H1 H2 R1 R2. rewrite order_by_desc_perm in H1, H2.
    apply (NoDup_fmap_elem_inj t_count_likes l); [done..|].
    unfold desc_count_likes in *. lia.
  - apply order_by_desc_sorted.
  - apply order_by_desc_sorted.
  - by rewrite !order_by_desc_perm.
Qed.

Lemma ranking_by_like_engine NUMBER_ALL_STYLES TATTOO_TYPE_MONOCHROME
    TATTOO_TYPE_COLOR (e1 e2 : SqlEngine) cl mb db client_id len_index len_return :
  (∀ id name city tattoo_type list_styles,
     get_client_info_and_styles db client_id
     = Some (id, name, city, tattoo_type, list_styles) →
     NoDup (t_count_likes
              <$> like_request NUMBER_ALL_STYLES TATTOO_TYPE_MONOCHROME
                    TATTOO_TYPE_COLOR cl mb db client_id city tattoo_type list_styles)) →
  ranking_by_like NUMBER_ALL_STYLES TATTOO_TYPE_MONOCHROME TATTOO_TYPE_COLOR e1
    cl mb db client_id len_index len_return
  = ranking_by_like NUMBER_ALL_STYLES TATTOO_TYPE_MONOCHROME TATTOO_TYPE_COLOR e2
      cl mb db client_id len_index len_return.
Proof.
  intros Hnd. unfold ranking_by_like.
  destruct (get_client_info_and_styles db client_id)
    as [[[[[id name] city] tattoo_type] list_styles]|]; [|done].
  by rewrite (order_by_desc_unique e1 e2) by eauto.
Qed.

Lemma get_master_liked_client_engine (e1 e2 : SqlEngine) db client_id len_index len_return :
  NoDup (t_count_likes
           <$> ranking_request db
                 (λ m, Master.master_id m
                         ∈ Likes.master_id
                             <$> filter (λ l, Likes.client_id l = client_id) (likes db)
                       ∧ Master.is_blocked m = false)) →
  get_master_liked_client e1 db client_id len_index len_return
  = get_master_liked_client e2 db client_id len_index len_return.
Proof.
  intros Hnd. unfold get_master_liked_client.
  by rewrite (order_by_desc_unique e1 e2) by done.
Qed.

Ltac by_compute := apply (bool_decide_unpack _); vm_compute; exact I.

(** The Berlin example, whatever the engine. *)
Lemma berlin_all (engine : SqlEngine) :
  get_master_ranking_by_like_with_except 0 "Monochrome" "Color" engine
    berlin 100 10 10 "all"
  = Some [P1_card; P2_card].
Proof.
  rewrite (with_except_tier _ _ _ _ _ _ _ _ _ _ _ (tier_clauses_all)).
  rewrite (ranking_by_like_engine _ _ _ engine merge_engine).
  - by vm_compute.
  - intros id name city tattoo_type list_styles H. vm_compute in H. simplify_eq.
    by_compute.
Qed.

Lemma berlin_none (engine : SqlEngine) :
  get_master_ranking_by_like_with_except 0 "Monochrome" "Color" engine
    berlin 100 10 10 "none"
  = Some [P3_card].
Proof.
  rewrite (with_except_tier _ _ _ _ _ _ _ _ _ _ _ (tier_clauses_none)).
  rewrite (ranking_by_like_engine _ _ _ engine merge_engine).
  - by vm_compute.
  - intros id name city tattoo_type list_styles H. vm_compute in H. simplify_eq.
    by_compute.
Qed.

(** ** Pagination of the tiers *)

(** C2, as amended: [len_index] is the end of the wanted window, not its
    start.  For an end index [len_index ≥ 0] and a page size
    [len_return ≥ 1] one call of a tier returns, without error, the slice
    [[(n - 1) * len_return, n * len_return)] of the ranked sequence with
    [n = ⌈len_index / len_return⌉], cut to what the sequence holds; that is
    nothing for [len_index = 0] and [[len_index - len_return, len_index)]
    when [len_index] is a positive multiple of [len_return].  In the Berlin
    example the calls with [len_index = 10] and [len_return = 10] return
    [[P1, P2]] for tier "all" and [[P3]] for tier "none". *)
Theorem tier_page_slice :
  (∀ NUMBER_ALL_STYLES TATTOO_TYPE_MONOCHROME TATTOO_TYPE_COLOR engine
     filtered db client_id len_index len_return,
     filtered ∈ ["all"; "city"; "none"] → 0 ≤ len_index → 0 < len_return →
     let ranked :=
       ranking NUMBER_ALL_STYLES TATTOO_TYPE_MONOCHROME TATTOO_TYPE_COLOR engine
         filtered db client_id in
     let n := (len_index + len_return - 1) `div` len_return in
     ∃ cards,
       get_master_ranking_by_like_with_except NUMBER_ALL_STYLES
         TATTOO_TYPE_MONOCHROME TATTOO_TYPE_COLOR engine
         db client_id len_index len_return filtered = Some cards
       ∧ (len_index = 0 → cards = [])
       ∧ (0 < len_index →
          dict_tuple <$> cards
          = slice (Z.to_nat ((n - 1) * len_return)) (Z.to_nat len_return) ranked)
       ∧ (0 < len_index → len_index `mod` len_return = 0 →
          dict_tuple <$> cards
          = slice (Z.to_nat (len_index - len_return)) (Z.to_nat len_return) ranked))
  ∧ (∀ engine,
       get_master_ranking_by_like_with_except 0 "Monochrome" "Color" engine
         berlin 100 10 10 "all" = Some [P1_card; P2_card])
  ∧ (∀ engine,
       get_master_ranking_by_like_with_except 0 "Monochrome" "Color" engine
         berlin 100 10 10 "none" = Some [P3_card]).
Proof.
  split; [|split; [apply berlin_all | apply berlin_none]].
  intros N M C engine filtered db client_id len_index len_return Hf Hi Hr ranked n.
  destruct (tier_page N M C engine filtered db client_id len_index len_return Hf Hi Hr)
    as (cards & Hrun & Heq).
  exists cards. split; [done|]. repeat split.
  - intros H0. rewrite decide_True in Heq by done. by destruct cards.
  - intros Hpos. by rewrite decide_False in Heq by lia.
  - intros Hpos Hmod. rewrite decide_False in Heq by lia.
    by rewrite ceil_multiple in Heq.
Qed.

Lemma tier_page_slice_witness :
  ∃ cards,
    get_master_ranking_by_like_with_except 0 "Monochrome" "Color" merge_engine
      berlin 100 2 1 "all" = Some cards
    ∧ dict_tuple <$> cards
      = slice 1 1 (ranking 0 "Monochrome" "Color" merge_engine "all" berlin 100).
Proof.
  destruct tier_page_slice as [H _].
  destruct (H 0 "Monochrome" "Color" merge_engine "all" berlin 100 2 1)
    as (cards & Hrun & _ & _ & Hslice); [by_compute | lia | lia |].
  exists cards. split; [exact Hrun|]. apply Hslice; [lia | reflexivity].
Defined.

(** Read as a start offset, index 0 does not give the first page: the call
    returns nothing, although the slice [[0, 10)] of the ranked sequence
    holds P1 and P2. *)
Lemma offset_zero_returns_nothing :
  get_master_ranking_by_like_with_except 0 "Monochrome" "Color" merge_engine
    berlin 100 0 10 "all" = Some []
  ∧ t_master_id
      <$> slice 0 10 (ranking 0 "Monochrome" "Color" merge_engine "all" berlin 100)
    = [1; 2].
Proof. split; by vm_compute. Qed.

(** ** Ties *)

(** Ties are not broken by ascending id: the merge-sort engine returns
    provider 2 before provider 1 although both have no like. *)
Lemma ties_not_by_ascending_id :
  ∃ cards,
    run 0 "Monochrome" "Color" merge_engine (rankCandidates "all") ties 100 2 2
    = Some cards
    ∧ StronglySorted desc_likes cards
    ∧ ¬ ties_by_ascending_id cards.
Proof.
  eexists. split; [by vm_compute|]. split.
  - repeat constructor; unfold desc_likes; simpl; lia.
  - intros H. specialize (H 0%nat 1%nat _ _ ltac:(lia) eq_refl eq_refl eq_refl).
    simpl in H. lia.
Qed.

Lemma ranking_sorted_by_likes_witness :
  StronglySorted desc_likes [P1_card; P2_card]
  ∧ Forall (λ d, d_likes d = likes_of berlin (d_master_id d)) [P1_card; P2_card].
Proof.
  apply (ranking_sorted_by_likes 0 "Monochrome" "Color" merge_engine
           (rankCandidates "all") berlin 100 10 10).
  by vm_compute.
Defined.

(** ** [create_like] *)

Lemma create_like_present db client_id master_id :
  Likes.mk client_id master_id ∈ likes db →
  create_like db client_id master_id = (false, db).
Proof.
  intros Hin. unfold create_like. rewrite decide_False; [done|].
  by intros (_ & _ & Hnot).
Qed.

(** A violated foreign key is reported like a repeated like. *)
Lemma create_like_foreign_key db client_id master_id :
  client_id ∉ Client.client_id <$> client db
  ∨ master_id ∉ Master.master_id <$> master db →
  create_like db client_id master_id = (false, db).
Proof.
  intros Hno. unfold create_like. rewrite decide_False; [done|].
  intros (? & ? & _). by destruct Hno.
Qed.

Lemma create_like_keeps db client_id master_id (like : Likes.t) :
  like ∈ likes db → like ∈ likes (create_like db client_id master_id).2.
Proof.
  intros Hin. unfold create_like. case_decide; simpl; [|done].
  apply elem_of_app. by left.
Qed.

Lemma create_like_unique db client_id master_id :
  unique_client_master_likes db →
  unique_client_master_likes (create_like db client_id master_id).2.
Proof.
  unfold unique_client_master_likes, create_like. intros Hnd.
  case_decide as Hok; simpl; [|done]. destruct Hok as (_ & _ & Hfresh).
  apply NoDup_app. split; [done|]. split; [|apply NoDup_singleton].
  intros like Hin ->%list_elem_of_singleton. done.
Qed.

Lemma create_likes_keeps db calls (like : Likes.t) :
  like ∈ likes db → like ∈ likes (create_likes db calls).
Proof.
  revert db. induction calls as [|[c m] calls IH]; intros db Hin; [done|].
  apply IH. by apply create_like_keeps.
Qed.

Lemma create_likes_unique db calls :
  unique_client_master_likes db → unique_client_master_likes (create_likes db calls).
Proof.
  revert db. induction calls as [|[c m] calls IH]; intros db Hnd; [done|].
  apply IH. by apply create_like_unique.
Qed.

(** C7, as amended: when no like row for the pair exists and both the
    requester and the provider records exist, [create_like] returns true
    and stores exactly one new row; every later call with the same pair,
    whatever other likes were created in between, returns false and leaves
    the store unchanged, and the pairs of the stored likes stay unique. *)
Theorem create_like_idempotent db client_id master_id calls :
  client_id ∈ Client.client_id <$> client db →
  master_id ∈ Master.master_id <$> master db →
  Likes.mk client_id master_id ∉ likes db →
  let db1 := (create_like db client_id master_id).2 in
  let db2 := create_likes db1 calls in
  (create_like db client_id master_id).1 = true
  ∧ likes db1 = likes db ++ [Likes.mk client_id master_id]
  ∧ create_like db2 client_id master_id = (false, db2)
  ∧ (unique_client_master_likes db → unique_client_master_likes db2).
Proof.
  intros Hc Hm Hfresh db1 db2.
  assert (Hcreate : create_like db client_id master_id
                    = (true, add_like db (Likes.mk client_id master_id))).
  { unfold create_like. by rewrite decide_True. }
  subst db2 db1. rewrite Hcreate. simpl. repeat split.
  - apply create_like_present, create_likes_keeps. simpl.
    apply elem_of_app. right. by apply list_elem_of_singleton.
  - intros Hnd. apply create_likes_unique.
    apply (create_like_unique db client_id master_id) in Hnd.
    by rewrite Hcreate in Hnd.
Qed.

Lemma create_like_idempotent_witness :
  (create_like berlin 100 1).1 = true
  ∧ likes (create_like berlin 100 1).2 = likes berlin ++ [Likes.mk 100 1]
  ∧ create_like (create_likes (create_like berlin 100 1).2 [(100, 2); (100, 1)]) 100 1
    = (false, create_likes (create_like berlin 100 1).2 [(100, 2); (100, 1)])
  ∧ (unique_client_master_likes berlin →
     unique_client_master_likes
       (create_likes (create_like berlin 100 1).2 [(100, 2); (100, 1)])).
Proof.
  apply (create_like_idempotent berlin 100 1 [(100, 2); (100, 1)]); by_compute.
Defined.

(** A like for a pair without a row is not always created: no like row for
    the pair (100, 9) exists, there is no provider 9, the foreign key of
    [Likes] is violated and the call returns false. *)
Lemma create_like_unknown_provider :
  (Likes.mk 100 9 ∉ likes berlin)
  ∧ create_like berlin 100 9 = (false, berlin).
Proof. split; [by_compute | by vm_compute]. Qed.

(** ** Enrichment in the liked view *)

(** C8 fails in [get_master_liked_client]: a liked provider on the page
    without photo rows (provider 2 of the Berlin store) or without style
    rows makes the call fail, where the tier functions attach the empty
    list. *)
Theorem liked_view_enrichment_fails (engine : SqlEngine) :
  get_master_liked_client engine berlin 101 10 10 = None
  ∧ get_master_liked_client engine liked_without_styles 100 1 1 = None
  ∧ get_master_ranking_by_like_with_except 0 "Monochrome" "Color" engine
      berlin 100 10 10 "all" = Some [P1_card; P2_card]
  ∧ d_photo_path P2_card = [].
Proof.
  repeat split.
  - rewrite (get_master_liked_client_engine engine merge_engine); [by vm_compute|].
    by_compute.
  - rewrite (get_master_liked_client_engine engine merge_engine); [by vm_compute|].
    by_compute.
  - apply berlin_all.
Qed.

(** The photo lists of the liked view are attached by position on the page
    to the groups of the photo query (emitted here in the order of the
    keys): provider 2, ranked first, receives the photo of provider 1. *)
Lemma liked_view_photos_by_position (engine : SqlEngine) :
  get_master_liked_client engine two_liked 100 2 2
  = Some [ mk_dict 2 "P2" "Berlin" "a2" ["realism"] ["one.jpg"] 2;
           mk_dict 1 "P1" "Berlin" "a1" ["realism"] ["two.jpg"] 1 ].
Proof.
  rewrite (get_master_liked_client_engine engine merge_engine); [by vm_compute|].
  by_compute.
Qed.

(** The liked view also fails for [len_index = 0]: its loop variable is
    never assigned. *)
Lemma liked_view_index_zero (engine : SqlEngine) db client_id len_return :
  get_master_liked_client engine db client_id 0 len_return = None.
Proof.
  unfold get_master_liked_client, number_iter.
  case_decide; [done|]. by rewrite Z.div_0_l, Z.mod_0_l by done.
Qed.

(** ** The theorems at concrete inputs *)

Lemma blocked_never_ranked_witness : 2 ∉ d_master_id <$> [P1_card].
Proof.
  apply (blocked_never_ranked 0 "Monochrome" "Color" merge_engine
           (rankCandidates "all") berlin_P2_blocked 100 10 10 [P1_card] P2_blocked).
  - by_compute.
  - by vm_compute.
  - by_compute.
  - reflexivity.
Defined.

Lemma filter_type_table_witness :
  let m := Master.mk 1 "P1" "Berlin" "a1" "Color" 0 false in
  (¬ filter_type "Monochrome" "Color" "Monochrome" m ↔ Master.tattoo_type m = "Color")
  ∧ (¬ filter_type "Monochrome" "Color" "Color" m ↔ Master.tattoo_type m = "Monochrome")
  ∧ filter_type "Monochrome" "Color" "Both" m
  ∧ (Master.tattoo_type m = "Both" →
     ∀ preference, filter_type "Monochrome" "Color" preference m).
Proof.
  apply (filter_type_table "Monochrome" "Color" "Both"
           (Master.mk 1 "P1" "Berlin" "a1" "Color" 0 false)).
  by_compute.
Defined.

Lemma wildcard_tier_all_witness :
  1 ∈ t_master_id <$> ranking 0 "Monochrome" "Color" merge_engine "all" berlin 100
  ↔ ∃ m, m ∈ master berlin ∧ Master.master_id m = 1
         ∧ Master.city m = "Berlin" ∧ Master.is_blocked m = false
         ∧ filter_type "Monochrome" "Color" "Both" m
         ∧ ∃ ms, ms ∈ master_styles berlin ∧ MasterStyles.master_id ms = 1.
Proof.
  apply (wildcard_tier_all 0 "Monochrome" "Color" merge_engine berlin 100 100 "R"
           "Berlin" "Both" 1).
  by vm_compute.
Defined.

Lemma tiers_disjoint_witness :
  let ids filtered :=
    t_master_id <$> ranking 0 "Monochrome" "Color" merge_engine filtered berlin 100 in
  ¬ (1 ∈ ids "all" ∧ 1 ∈ ids "city")
  ∧ ¬ (1 ∈ ids "all" ∧ 1 ∈ ids "none")
  ∧ ¬ (1 ∈ ids "city" ∧ 1 ∈ ids "none").
Proof.
  apply (tiers_disjoint 0 "Monochrome" "Color" merge_engine berlin 100 1).
  by_compute.
Defined.

Lemma missing_requester_empty_witness :
  get_master_ranking_by_like_with_except 0 "Monochrome" "Color" merge_engine
    berlin 7 10 10 "all" = Some [].
Proof.
  apply (missing_requester_empty 0 "Monochrome" "Color" merge_engine berlin 7 10 10 "all").
  apply (Forall_forall (λ c, Client.client_id c ≠ 7) (client berlin)). by_compute.
Defined.

Lemma requester_without_styles_empty_witness :
  get_client_info_and_styles berlin 101 = None
  ∧ get_master_ranking_by_like_with_except 0 "Monochrome" "Color" merge_engine
      berlin 101 10 10 "city" = Some [].
Proof.
  apply (requester_without_styles_empty 0 "Monochrome" "Color" merge_engine
           berlin 101 10 10 "city").
  - exists (Client.mk 101 "c" "Hamburg" "Both"). split; [by_compute | reflexivity].
  - apply (Forall_forall (λ cs, ClientStyles.client_id cs ≠ 101) (client_styles berlin)).
    by_compute.
  - by_compute.
Defined.

(** ** Likes: creation, deletion and the like count *)

(** X1: a successful [create_like] raises the like count of the liked
    master by exactly one and leaves the count of every other master; a
    call that returns false changes no count. *)
Theorem create_like_likes_count db client_id master_id (other : Z) :
  get_master_likes_count (create_like db client_id master_id).2 other
  = get_master_likes_count db other
    + (if (create_like db client_id master_id).1 && bool_decide (other = master_id)
       then 1 else 0).
Proof.
  unfold create_like, get_master_likes_count. case_decide; simpl; [|lia].
  rewrite filter_app, length_app, filter_cons, filter_nil. simpl.
  case_bool_decide as Ho.
  - subst. rewrite decide_True by done. simpl. lia.
  - rewrite decide_False by done. simpl. lia.
Qed.

(** X2: a like that [create_like] has just created is removed again by
    [delete_like], which returns true and restores the snapshot. *)
Theorem like_then_unlike db client_id master_id db1 :
  create_like db client_id master_id = (true, db1) →
  delete_like db1 client_id master_id = (true, db).
Proof.
  unfold create_like. case_decide as Hok; [|done]. intros [= <-].
  destruct Hok as (_ & _ & Hfresh). unfold delete_like. simpl.
  rewrite !filter_app, !filter_cons, !filter_nil.
  rewrite decide_True by done. rewrite decide_False by (intros Hn; by apply Hn).
  assert (Hothers : Forall (λ l, ¬ (Likes.client_id l = client_id
                                   ∧ Likes.master_id l = master_id)) (likes db)).
  { apply Forall_forall. intros l Hl Hpair. apply like_pair in Hpair. by subst. }
  rewrite (filter_none _ _ Hothers), (filter_all _ _ Hothers). simpl.
  rewrite app_nil_r. unfold set_likes, add_like. simpl. by rewrite database_eta.
Qed.

Lemma like_then_unlike_witness :
  delete_like (add_like berlin (Likes.mk 100 1)) 100 1 = (true, berlin).
Proof. apply (like_then_unlike berlin 100 1). by vm_compute. Defined.

(** X3: [delete_like] returns true exactly when a row for the pair was
    stored; afterwards no row for the pair is left, every other like is
    kept, and, the requester and the provider being there, the pair can be
    liked anew. *)
Theorem delete_like_spec db client_id master_id :
  let like := Likes.mk client_id master_id in
  let db1 := (delete_like db client_id master_id).2 in
  ((delete_like db client_id master_id).1 = true ↔ like ∈ likes db)
  ∧ (∀ l, l ∈ likes db1 ↔ l ∈ likes db ∧ l ≠ like)
  ∧ (client_id ∈ Client.client_id <$> client db →
     master_id ∈ Master.master_id <$> master db →
     (create_like db1 client_id master_id).1 = true).
Proof.
  intros like db1. subst like db1. unfold delete_like. simpl.
  split; [split|split].
  - intros Hpos%bool_decide_eq_true.
    destruct (filter _ (likes db)) as [|l ls] eqn:Hf; [simpl in Hpos; lia|].
    assert (Hl : l ∈ filter (λ l, Likes.client_id l = client_id
                                  ∧ Likes.master_id l = master_id) (likes db))
      by (rewrite Hf; left).
    apply list_elem_of_filter in Hl as [Hpair%like_pair Hl]. by subst.
  - intros Hin. apply bool_decide_eq_true.
    assert (Hl : Likes.mk client_id master_id
                 ∈ filter (λ l, Likes.client_id l = client_id
                                ∧ Likes.master_id l = master_id) (likes db))
      by (by apply list_elem_of_filter).
    destruct (filter _ (likes db)); [by apply elem_of_nil in Hl | simpl; lia].
  - intros l. rewrite list_elem_of_filter, like_pair. tauto.
  - intros Hc Hm. unfold create_like. rewrite decide_True; [done|].
    split; [done|]. split; [done|]. simpl.
    intros [Hn _]%list_elem_of_filter. by apply Hn.
Qed.

Lemma delete_like_spec_witness :
  (create_like (delete_like berlin 101 1).2 101 1).1 = true.
Proof.
  destruct (delete_like_spec berlin 101 1) as (_ & _ & H).
  apply H; by_compute.
Defined.

(** ** The further properties at concrete inputs *)

Lemma blocked_master_hidden_witness : 1 ∉ d_master_id <$> [P2_card].
Proof.
  apply (blocked_master_hidden 0 "Monochrome" "Color" merge_engine berlin 1
           (rankCandidates "all") 100 10 10 [P2_card]).
  by vm_compute.
Defined.


Lemma liked_view_cards_liked_witness :
  Likes.mk 101 2 ∈ likes two_liked.
Proof.
  apply (liked_view_cards_liked merge_engine two_liked 101 10 10
           [mk_dict 2 "P2" "Berlin" "a2" ["realism"] ["two.jpg"] 2]
           (mk_dict 2 "P2" "Berlin" "a2" ["realism"] ["two.jpg"] 2)).
  - by vm_compute.
  - left.
Defined.

Lemma new_registered_cards_witness :
  ∃ c m, c ∈ client berlin ∧ Client.client_id c = 100
         ∧ m ∈ master berlin ∧ Master.master_id m = d_master_id P2_card
         ∧ d_city P2_card = Client.city c ∧ Master.city m = Client.city c
         ∧ 1 - week < Master.date_of_reg m.
Proof.
  apply (new_registered_cards merge_engine berlin 1 100 10 10 [P1_card; P2_card] P2_card).
  - by_compute.
  - by vm_compute.
  - right; left.
Defined.



Lemma new_registered_city_listed_witness :
  NoDup (get_master_cities_new_registered berlin 1)
  ∧ d_city P1_card ∈ get_master_cities_new_registered berlin 1.
Proof.
  apply (new_registered_city_listed merge_engine berlin 1 100 10 10
           [P1_card; P2_card] P1_card).
  - by_compute.
  - by vm_compute.
  - left.
Defined.

Lemma styles_tier_all_witness :
  1 ∈ t_master_id <$> ranking 0 "Monochrome" "Color" merge_engine "all" berlin_realism 100
  ↔ ∃ m ms, m ∈ master berlin_realism ∧ Master.master_id m = 1
            ∧ Master.city m = "Berlin" ∧ Master.is_blocked m = false
            ∧ filter_type "Monochrome" "Color" "Both" m
            ∧ ms ∈ master_styles berlin_realism ∧ MasterStyles.master_id ms = 1
            ∧ (MasterStyles.style_id ms = 0
               ∨ ∃ cs, cs ∈ client_styles berlin_realism
                       ∧ ClientStyles.client_id cs = 100
                       ∧ ClientStyles.style_id cs = MasterStyles.style_id ms).
Proof.
  apply (styles_tier_all 0 "Monochrome" "Color" merge_engine berlin_realism 100 100
           "R" "Berlin" "Both" [1] 1).
  - by_compute.
  - by vm_compute.
  - by_compute.
Defined.

Lemma tiers_cover_city_witness :
  2 ∈ t_master_id <$> ranking 0 "Monochrome" "Color" merge_engine "all" berlin_realism 100
  ∨ 2 ∈ t_master_id <$> ranking 0 "Monochrome" "Color" merge_engine "city" berlin_realism 100.
Proof.
  apply (tiers_cover_city 0 "Monochrome" "Color" merge_engine berlin_realism 100 100
           "R" "Berlin" "Both" [1] (Master.mk 2 "P2" "Berlin" "a2" "Monochrome" 0 false)).
  - by vm_compute.
  - by_compute.
  - reflexivity.
  - reflexivity.
Defined.

Lemma create_client_styles_lookup_witness :
  get_client_info_and_styles (create_client_styles 0 3 berlin 100 [2; 1]) 100
  = Some (100, "R", "Berlin", "Both",
          filter (λ s, s ∈ Styles.style_id <$> styles berlin)
            (validate_style_ids 0 3 [2; 1])).
Proof.
  apply (create_client_styles_lookup 0 3 berlin (Client.mk 100 "R" "Berlin" "Both") [2; 1]).
  - by_compute.
  - by_compute.
  - by_compute.
  - by_compute.
Defined.

Lemma create_client_styles_frame_witness :
  get_client_info_and_styles (create_client_styles 0 3 berlin 101 [1]) 100
  = get_client_info_and_styles berlin 100.
Proof. apply (create_client_styles_frame 0 3 berlin 101 [1] 100). by_compute. Defined.

Lemma create_client_styles_nothing_valid_witness :
  get_master_ranking_by_like_with_except 0 "Monochrome" "Color" merge_engine
    (create_client_styles 0 5 berlin 100 [4; 5]) 100 10 10 "all" = Some [].
Proof.
  apply (create_client_styles_nothing_valid 0 5 "Monochrome" "Color" merge_engine
           berlin 100 [4; 5] 10 10 "all").
  apply (Forall_forall (λ s, s ∉ Styles.style_id <$> styles berlin)
           (validate_style_ids 0 5 [4; 5])).
  by_compute.
Defined.

Lemma create_client_styles_wildcard_witness :
  2 ∈ t_master_id <$> ranking 0 "Monochrome" "Color" merge_engine "all"
        (create_client_styles 0 3 berlin_realism 100 [1; 0]) 100
  ↔ ∃ m, m ∈ master berlin_realism ∧ Master.master_id m = 2
         ∧ Master.city m = "Berlin" ∧ Master.is_blocked m = false
         ∧ filter_type "Monochrome" "Color" "Both" m
         ∧ ∃ ms, ms ∈ master_styles berlin_realism ∧ MasterStyles.master_id ms = 2.
Proof.
  apply (create_client_styles_wildcard 0 3 "Monochrome" "Color" merge_engine
           berlin_realism (Client.mk 100 "R" "Berlin" "Both") [1; 0] 2).
  - by_compute.
  - by_compute.
  - by_compute.
  - by_compute.
  - by_compute.
Defined.

Lemma create_master_styles_wildcard_witness :
  2 ∈ t_master_id <$> ranking 0 "Monochrome" "Color" merge_engine "all"
        (create_master_styles 0 3 berlin_realism 2 [0; 2]) 100.
Proof.
  apply (create_master_styles_wildcard 0 3 "Monochrome" "Color" merge_engine
           berlin_realism (Master.mk 2 "P2" "Berlin" "a2" "Monochrome" 0 false)
           [0; 2] 100 100 "R" "Both" [1]).
  - by_compute.
  - by_compute.
  - reflexivity.
  - by_compute.
  - by_compute.
  - by vm_compute.
  - by_compute.
Defined.


Lemma delete_master_gone_witness :
  check_master_in_db (delete_master berlin 1) 1 = false
  ∧ get_master_likes_count (delete_master berlin 1) 3 = get_master_likes_count berlin 3
  ∧ get_master_likes_count (delete_master berlin 1) 1 = 0
  ∧ get_master_photos (delete_master berlin 1) 1 = []
  ∧ 1 ∉ d_master_id <$> [P2_card].
Proof.
  destruct (delete_master_gone 0 "Monochrome" "Color" merge_engine berlin 1)
    as (Hgone & Hother & Hrows & Hrank).
  - by_compute.
  - destruct Hrows as (Hlikes & Hphotos & _); [by vm_compute|].
    split; [exact Hgone|]. split; [apply Hother; by_compute|].
    split; [exact Hlikes|]. split; [exact Hphotos|].
    apply (Hrank (rankCandidates "all") 100 10 10). by vm_compute.
Defined.

Lemma delete_client_gone_witness :
  check_client_in_db (delete_client berlin 101) 101 = false
  ∧ get_master_ranking_by_like_with_except 0 "Monochrome" "Color" merge_engine
      (delete_client berlin 101) 101 10 10 "all" = Some []
  ∧ get_master_likes_count (delete_client berlin 101) 1
    = get_master_likes_count berlin 1
      - Z.of_nat (length (filter (λ l, Likes.client_id l = 101 ∧ Likes.master_id l = 1)
                            (likes berlin))).
Proof.
  destruct (delete_client_gone 0 "Monochrome" "Color" merge_engine berlin 101)
    as (Hgone & Hrank & Hcount).
  - by_compute.
  - by vm_compute.
  - split; [exact Hgone|]. split; [apply Hrank | apply Hcount].
Defined.

Lemma berlin_consistent : consistent berlin.
Proof. constructor; by_compute. Qed.

Lemma consistent_preserved_witness :
  consistent (perform 0 3 (call_delete_master 1) berlin)
  ∧ consistent (perform 0 3 (call_create_client_styles 100 [1; 2]) berlin).
Proof.
  split; apply (consistent_preserved 0 3); apply berlin_consistent.
Defined.


Lemma create_client_styles_selected_witness :
  get_client_selected_styles (create_client_styles 0 3 berlin 100 [2; 7]) 100 !! 2
    = Some "dotwork"
  ↔ 2 ∈ validate_style_ids 0 3 [2; 7] ∧ Styles.mk 2 "dotwork" ∈ styles berlin.
Proof.
  apply (create_client_styles_selected 0 3 berlin 100 [2; 7] 2 "dotwork"); by_compute.
Defined.

Lemma create_master_styles_selected_witness :
  (get_master_selected_styles (create_master_styles 0 3 berlin 2 [1; 2]) 2 !! 1
     = Some "realism"
   ↔ 1 ∈ validate_style_ids 0 3 [1; 2] ∧ Styles.mk 1 "realism" ∈ styles berlin)
  ∧ get_master_selected_styles (delete_master_styles berlin 2) 2 !! 1 = None.
Proof.
  apply (create_master_styles_selected 0 3 berlin 2 [1; 2] 1 "realism"); by_compute.
Defined.
